(** * statsmodels: documentation workflow and notebook helpers

    A shallow embedding of

    - [.github/workflows/generate-documentation.yml], the GitHub Actions
      workflow that builds the Sphinx documentation and publishes it to
      the [statsmodels.github.io] repository, and
    - [simulate_seasonal_term] and the cell that calls it, from the
      notebook [examples/notebooks/robust_models_1.ipynb], and
    - the data preparation of [examples/notebooks/glm_formula.ipynb].

    The workflow file is data; what it does is fixed by the way the
    Actions runner reads it (trigger filters, [${{ }}] expressions, step
    conditions).  The definitions come first: module [Str] has the string
    helpers, [Expr] the expression language, [Actions] the workflow
    schema, the runner's reading of it and the file itself, [Seasonal] the
    notebook function and its caller, [Glm] the frames and the preparation
    cell.  The properties follow. *)

From Stdlib Require Import String Ascii List Bool ZArith QArith Qround Lia.
Import ListNotations.

Close Scope Q_scope.
Open Scope string_scope.
Open Scope list_scope.

(* ================================================================== *)
(** ** Strings *)

Module Str.

(** Line feed, and a block scalar ([run: |]) as the lines it holds: every
    line of a literal block ends with a line feed. *)
Definition nl : string := String (ascii_of_nat 10) EmptyString.

Fixpoint block (ls : list string) : string :=
  match ls with
  | [] => ""
  | l :: rest => l ++ nl ++ block rest
  end.

Definition lower_ascii (c : ascii) : ascii :=
  let n := nat_of_ascii c in
  if andb (Nat.leb 65 n) (Nat.leb n 90) then ascii_of_nat (n + 32) else c.

Fixpoint lower (s : string) : string :=
  match s with
  | EmptyString => EmptyString
  | String c rest => String (lower_ascii c) (lower rest)
  end.

(** [strip_prefix p s] is [Some rest] when [s = p ++ rest]. *)
Fixpoint strip_prefix (p s : string) : option string :=
  match p, s with
  | EmptyString, _ => Some s
  | String a p', String b s' =>
      if Ascii.eqb a b then strip_prefix p' s' else None
  | String _ _, EmptyString => None
  end.

Fixpoint contains (needle hay : string) : bool :=
  if String.prefix needle hay then true
  else match hay with
       | EmptyString => false
       | String _ rest => contains needle rest
       end.

Fixpoint join (sep : string) (ls : list string) : string :=
  match ls with
  | [] => ""
  | [x] => x
  | x :: rest => x ++ sep ++ join sep rest
  end.

Definition is_empty (s : string) : bool :=
  match s with EmptyString => true | _ => false end.

End Str.

(* ================================================================== *)
(** ** The expression language of [${{ ... }}] and [if:] *)

Module Expr.

Inductive job_status := Success | Failure | Cancelled.

(** Status check functions; the file calls none of them, the runner
    supplies [success()] where a condition has none. *)
Inductive status_fn := FSuccess | FAlways | FCancelled | FFailure.

(** Expressions: the forms the workflow file uses (string literals,
    context properties, [==], [||]) and the status check functions. *)
Inductive expr :=
| ELit (s : string)
| ECtx (path : list string)
| EEq (a b : expr)
| EOr (a b : expr)
| EStatus (f : status_fn).

(** The file has no numeric literal and reads only string-valued or
    absent properties, so three kinds of value arise. *)
Inductive value :=
| VNull
| VBool (b : bool)
| VStr (s : string).

(** A scalar of the file: literal text with [${{ }}] holes. *)
Inductive piece :=
| Text (s : string)
| Interp (e : expr).

Definition template := list piece.

(** Source text of an expression and of a scalar, as the file spells it. *)
Definition status_fn_source (f : status_fn) : string :=
  match f with
  | FSuccess => "success()"
  | FAlways => "always()"
  | FCancelled => "cancelled()"
  | FFailure => "failure()"
  end.

Fixpoint expr_source (e : expr) : string :=
  match e with
  | ELit s => "'" ++ s ++ "'"
  | ECtx path => Str.join "." path
  | EEq a b => expr_source a ++ " == " ++ expr_source b
  | EOr a b => expr_source a ++ " || " ++ expr_source b
  | EStatus f => status_fn_source f
  end.

Definition piece_source (p : piece) : string :=
  match p with
  | Text s => s
  | Interp e => "${{ " ++ expr_source e ++ " }}"
  end.

Definition template_source (t : template) : string :=
  String.concat "" (map piece_source t).

(** Context properties an expression reads. *)
Fixpoint expr_refs (e : expr) : list (list string) :=
  match e with
  | ELit _ => []
  | ECtx path => [path]
  | EEq a b => expr_refs a ++ expr_refs b
  | EOr a b => expr_refs a ++ expr_refs b
  | EStatus _ => []
  end.

Definition template_refs (t : template) : list (list string) :=
  flat_map (fun p => match p with Text _ => [] | Interp e => expr_refs e end) t.

Fixpoint mentions_status (e : expr) : bool :=
  match e with
  | ELit _ | ECtx _ => false
  | EEq a b | EOr a b => mentions_status a || mentions_status b
  | EStatus _ => true
  end.

Definition truthy (v : value) : bool :=
  match v with
  | VNull => false
  | VBool b => b
  | VStr s => negb (Str.is_empty s)
  end.

Definition to_string (v : value) : string :=
  match v with
  | VNull => ""
  | VBool true => "true"
  | VBool false => "false"
  | VStr s => s
  end.

Definition status_holds (f : status_fn) (st : job_status) : bool :=
  match f, st with
  | FAlways, _ => true
  | FSuccess, Success => true
  | FFailure, Failure => true
  | FCancelled, Cancelled => true
  | _, _ => false
  end.

Section Eval.

(** How the runner reads a non-empty string as a number when the two
    sides of [==] differ in type ([None] is NaN).  It belongs to the
    runner, not to the repository, and is left open. *)
Variable parse_number : string -> option Q.

Definition to_number (v : value) : option Q :=
  match v with
  | VNull => Some (inject_Z 0)
  | VBool true => Some (inject_Z 1)
  | VBool false => Some (inject_Z 0)
  | VStr s => if Str.is_empty s then Some (inject_Z 0) else parse_number s
  end.

(** [==]: strings compare ignoring case; operands of different types are
    both coerced to numbers, and NaN equals nothing. *)
Definition loose_eq (a b : value) : bool :=
  match a, b with
  | VStr x, VStr y => String.eqb (Str.lower x) (Str.lower y)
  | VBool x, VBool y => Bool.eqb x y
  | VNull, VNull => true
  | _, _ =>
      match to_number a, to_number b with
      | Some x, Some y => Qeq_bool x y
      | _, _ => false
      end
  end.

Variable lookup : list string -> value.
Variable status : job_status.

Fixpoint eval (e : expr) : value :=
  match e with
  | ELit s => VStr s
  | ECtx path => lookup path
  | EEq a b => VBool (loose_eq (eval a) (eval b))
  | EOr a b => let va := eval a in if truthy va then va else eval b
  | EStatus f => VBool (status_holds f status)
  end.

Definition render_piece (p : piece) : string :=
  match p with
  | Text s => s
  | Interp e => to_string (eval e)
  end.

Definition render (t : template) : string :=
  String.concat "" (map render_piece t).

End Eval.

End Expr.

(* ================================================================== *)
(** ** Workflow schema, the runner's reading of it, and the file *)

Module Actions.
Import Expr.

(** *** Schema *)

(** One key under [on:].  A filter that the file does not write is
    [None]: an unwritten [branches:] restricts nothing, an unwritten
    [types:] stands for the activity types the platform takes by default
    for the event ([default_types] below). *)
Record trigger := {
  t_event : string;
  t_types : option (list string);
  t_branches : option (list string)
}.

Record concurrency := {
  group : template;
  cancel_in_progress : bool
}.

Record strategy := {
  fail_fast : option bool;
  matrix : list (string * list string)
}.

Record step := {
  s_name : template;
  s_uses : option string;
  s_with : list (string * template);
  s_run : option string;
  s_env : list (string * template);
  s_if : option expr;
  s_continue_on_error : option bool
}.

Record job := {
  j_permissions : list (string * string);
  runs_on : string;
  default_shell : option string;
  j_strategy : strategy;
  steps : list step
}.

Record workflow := {
  w_name : string;
  w_on : list trigger;
  w_concurrency : option concurrency;
  w_permissions : list (string * string);
  jobs : list (string * job)
}.

(** *** Events and runs *)

(** A webhook event as far as the file looks at it.  [ev_action] is the
    activity type, [ev_ref] the full git ref, [ev_head_ref] the source
    branch of a pull request and [ev_release_tag] the tag of a release;
    the last two are read only for the events that carry them. *)
Record event := {
  ev_name : string;
  ev_action : string;
  ev_ref : string;
  ev_head_ref : string;
  ev_release_tag : string
}.

Record run := {
  r_event : event;
  r_run_id : string;
  r_secrets : list (string * string);
  r_matrix : list (string * string)
}.

Fixpoint assoc {A : Type} (k : string) (l : list (string * A)) : option A :=
  match l with
  | [] => None
  | (k', v) :: rest => if String.eqb k k' then Some v else assoc k rest
  end.

(** *** Triggers *)

Definition metachars : list ascii :=
  ["*"; "?"; "+"; "["; "]"; "!"]%char.

Fixpoint literal_pattern (p : string) : bool :=
  match p with
  | EmptyString => true
  | String c rest =>
      negb (existsb (Ascii.eqb c) metachars) && literal_pattern rest
  end.

(** A branch pattern without glob characters matches its own text only.
    Every pattern of the file is of that kind ([patterns_literal] below);
    a pattern with glob characters is outside this reading and matches
    nothing here. *)
Definition pattern_matches (pat branch : string) : bool :=
  literal_pattern pat && String.eqb pat branch.

Definition branch_of_ref (ref : string) : option string :=
  Str.strip_prefix "refs/heads/" ref.

(** The activity types an event is limited to when its key carries no
    [types:].  The pull-request events start a workflow by default on
    [opened], [synchronize] and [reopened] only; the other events, among
    them [push], which has no activity types, and [release], start it on
    every activity. *)
Definition default_types (event_name : string) : option (list string) :=
  if String.eqb event_name "pull_request"
     || String.eqb event_name "pull_request_target"
  then Some ["opened"; "synchronize"; "reopened"]
  else None.

Definition types_pass (t : trigger) (e : event) : bool :=
  let listed := match t_types t with
                | Some tys => Some tys
                | None => default_types (t_event t)
                end in
  match listed with
  | None => true
  | Some tys => existsb (String.eqb (ev_action e)) tys
  end.

(** With [branches:] written and no [tags:], only branch refs pass. *)
Definition branches_pass (t : trigger) (e : event) : bool :=
  match t_branches t with
  | None => true
  | Some pats =>
      match branch_of_ref (ev_ref e) with
      | Some b => existsb (fun p => pattern_matches p b) pats
      | None => false
      end
  end.

Definition trigger_matches (t : trigger) (e : event) : bool :=
  String.eqb (t_event t) (ev_name e) && types_pass t e && branches_pass t e.

Definition triggers (w : workflow) (e : event) : bool :=
  existsb (fun t => trigger_matches t e) (w_on w).

(** *** Contexts *)

(** [github.head_ref] is set only for pull-request events. *)
Definition head_ref (e : event) : string :=
  if String.eqb (ev_name e) "pull_request"
     || String.eqb (ev_name e) "pull_request_target"
  then ev_head_ref e else "".

(** The part of the event payload the file can reach:
    [github.event.release.*] exists on release events only. *)
Definition payload (e : event) (path : list string) : value :=
  match path with
  | [obj; field] =>
      if String.eqb obj "release" && String.eqb field "tag_name"
         && String.eqb (ev_name e) "release"
      then VStr (ev_release_tag e) else VNull
  | _ => VNull
  end.

Definition of_option (o : option string) : value :=
  match o with Some s => VStr s | None => VNull end.

Definition github (w : workflow) (r : run) (path : list string) : value :=
  match path with
  | [prop] =>
      if String.eqb prop "workflow" then VStr (w_name w)
      else if String.eqb prop "event_name" then VStr (ev_name (r_event r))
      else if String.eqb prop "head_ref" then VStr (head_ref (r_event r))
      else if String.eqb prop "run_id" then VStr (r_run_id r)
      else if String.eqb prop "ref" then VStr (ev_ref (r_event r))
      else VNull
  | prop :: rest =>
      if String.eqb prop "event" then payload (r_event r) rest else VNull
  | [] => VNull
  end.

Definition lookup (w : workflow) (r : run) (path : list string) : value :=
  match path with
  | root :: rest =>
      if String.eqb root "github" then github w r rest
      else if String.eqb root "secrets" then
        match rest with
        | [k] => of_option (assoc k (r_secrets r))
        | _ => VNull
        end
      else if String.eqb root "matrix" then
        match rest with
        | [k] => of_option (assoc k (r_matrix r))
        | _ => VNull
        end
      else VNull
  | [] => VNull
  end.

(** One job instance per combination of the matrix. *)
Fixpoint matrix_combos (m : list (string * list string))
  : list (list (string * string)) :=
  match m with
  | [] => [[]]
  | (k, vs) :: rest =>
      flat_map (fun v => map (fun c => (k, v) :: c) (matrix_combos rest)) vs
  end.

(** *** Running a job *)

Inductive step_result := Ran (ok : bool) | Skipped.

Section Runner.

Variable parse_number : string -> option Q.
Variable w : workflow.
Variable r : run.

Definition eval_in (st : job_status) (e : expr) : value :=
  eval parse_number (lookup w r) st e.

Definition render_in (st : job_status) (t : template) : string :=
  render parse_number (lookup w r) st t.

(** A step without [if:] runs while the job is successful; a condition
    that calls no status check function is read as [success() && (...)]. *)
Definition step_runs (st : job_status) (s : step) : bool :=
  match s_if s with
  | None => status_holds FSuccess st
  | Some e =>
      if mentions_status e then truthy (eval_in st e)
      else status_holds FSuccess st && truthy (eval_in st e)
  end.

Definition after_step (st : job_status) (s : step) (ok : bool) : job_status :=
  if ok then st
  else match s_continue_on_error s with
       | Some true => st
       | _ => match st with Success => Failure | _ => st end
       end.

(** The steps of a job in file order; [outcome] says whether a step that
    runs succeeds. *)
Fixpoint run_steps (outcome : step -> bool) (st : job_status)
  (ss : list step) : list (step * step_result) * job_status :=
  match ss with
  | [] => ([], st)
  | s :: rest =>
      if step_runs st s then
        let ok := outcome s in
        let (log, st') := run_steps outcome (after_step st s ok) rest in
        ((s, Ran ok) :: log, st')
      else
        let (log, st') := run_steps outcome st rest in
        ((s, Skipped) :: log, st')
  end.

Definition executed (log : list (step * step_result)) : list step :=
  flat_map (fun p => match snd p with Ran _ => [fst p] | Skipped => [] end) log.

(** Concurrency group of the run ([None] when the file declares none). *)
Definition group_of : option string :=
  match w_concurrency w with
  | Some c => Some (render_in Success (group c))
  | None => None
  end.

End Runner.

(** A queued run cancels an in-flight run of the same workflow when the
    workflow asks for it and both fall in the same group.  The two group
    names are compared as they are rendered; the platform disregards the
    case of their letters, which makes a difference only for two names
    that differ by case alone. *)
Definition cancels (pn : string -> option Q) (w : workflow)
  (queued in_flight : run) : bool :=
  match w_concurrency w, group_of pn w queued, group_of pn w in_flight with
  | Some c, Some g1, Some g2 => cancel_in_progress c && String.eqb g1 g2
  | _, _, _ => false
  end.

(** *** [.github/workflows/generate-documentation.yml] *)

Definition plain (s : string) : template := [Text s].

Definition event_name : expr := ECtx ["github"; "event_name"].

(** No step of the file writes [continue-on-error]. *)
Definition uses_step (name : template) (act : string)
  (args : list (string * template)) (cond : option expr) : step :=
  {| s_name := name; s_uses := Some act; s_with := args; s_run := None;
     s_env := []; s_if := cond; s_continue_on_error := None |}.

Definition run_step (name : template) (script : string)
  (env : list (string * template)) (cond : option expr) : step :=
  {| s_name := name; s_uses := None; s_with := []; s_run := Some script;
     s_env := env; s_if := cond; s_continue_on_error := None |}.

Definition on_pull_request : expr :=
  EEq event_name (ELit "pull_request").

Definition on_release_or_push : expr :=
  EOr (EEq event_name (ELit "release")) (EEq event_name (ELit "push")).

Definition checkout : step :=
  uses_step (plain "Checkout") "actions/checkout@v4"
    [("fetch-depth", plain "0")] None.

Definition checkout_docs_without_token : step :=
  uses_step (plain "Checkout statsmodels.github.io without token")
    "actions/checkout@v4"
    [("fetch-depth", plain "1");
     ("repository", plain "statsmodels/statsmodels.github.io");
     ("path", plain "statsmodels.github.io")]
    (Some on_pull_request).

Definition checkout_docs_with_token : step :=
  uses_step (plain "Checkout statsmodels.github.io with token")
    "actions/checkout@v4"
    [("fetch-depth", plain "1");
     ("repository", plain "statsmodels/statsmodels.github.io");
     ("path", plain "statsmodels.github.io");
     ("token", [Interp (ECtx ["secrets"; "DOCBUILD_TOKEN"])])]
    (Some on_release_or_push).

Definition event_type : step :=
  run_step (plain "Event type") "echo $EVENT_TYPE"
    [("EVENT_TYPE", [Interp event_name])] None.

Definition install_pandoc : step :=
  uses_step (plain "Install pandoc") "r-lib/actions/setup-pandoc@v2" [] None.

Definition install_graphviz : step :=
  uses_step (plain "Install graphviz") "ts-graphviz/setup-graphviz@v2" []
    None.

Definition set_up_python : step :=
  uses_step [Text "Set up Python "; Interp (ECtx ["matrix"; "python-version"])]
    "actions/setup-python@v5"
    [("python-version", [Interp (ECtx ["matrix"; "python-version"])]);
     ("cache", plain "pip")]
    None.

Definition install_dependencies : step :=
  run_step (plain "Install dependencies")
    (Str.block
       ["python -m pip install --upgrade pip wheel setuptools";
        "python -m pip install -r requirements.txt";
        "python -m pip install -r requirements-dev.txt";
        "python -m pip install -r requirements-doc.txt";
        "python -m pip list"])
    [] None.

Definition install_statsmodels : step :=
  run_step (plain "Install statsmodels") "python -m pip install . -vv" []
    None.

Definition build_documentation : step :=
  run_step (plain "Build documentation")
    (Str.block ["pushd docs"; "make html"; "popd"]) [] None.

Definition move_and_commit_documentation : step :=
  run_step (plain "Move and commit documentation")
    (Str.block ["source tools/ci/docbuild-commit.sh"])
    [("GIT_TAG", [Interp (ECtx ["github"; "event"; "release"; "tag_name"])])]
    None.

Definition push_changes : step :=
  run_step (plain "Push changes")
    (Str.block ["source tools/ci/docbuild-push.sh"])
    [("PERSONAL_ACCESS_TOKEN", [Interp (ECtx ["secrets"; "DOCBUILD_TOKEN"])])]
    (Some on_release_or_push).

Definition build : job :=
  {| j_permissions := [("contents", "write")];
     runs_on := "ubuntu-latest";
     default_shell := Some "bash";
     j_strategy :=
       {| fail_fast := Some false;
          matrix := [("python-version", ["3.10"])] |};
     steps :=
       [checkout; checkout_docs_without_token; checkout_docs_with_token;
        event_type; install_pandoc; install_graphviz; set_up_python;
        install_dependencies; install_statsmodels; build_documentation;
        move_and_commit_documentation; push_changes] |}.

Definition generate_documentation : workflow :=
  {| w_name := "Generate Documentation";
     w_on :=
       [{| t_event := "release"; t_types := Some ["published"];
           t_branches := None |};
        {| t_event := "push"; t_types := None;
           t_branches := Some ["main"] |};
        {| t_event := "pull_request"; t_types := None;
           t_branches := None |}];
     w_concurrency :=
       Some {| group :=
                 [Interp (ECtx ["github"; "workflow"]); Text "-";
                  Interp (EOr (ECtx ["github"; "head_ref"])
                              (ECtx ["github"; "run_id"]))];
               cancel_in_progress := true |};
     w_permissions := [];
     jobs := [("build", build)] |}.

(** *** Derived views of a job *)

Definition step_label (s : step) : string := template_source (s_name s).

Definition labels (ss : list step) : list string := map step_label ss.

(** Labels of the steps that run, in order, when the job starts
    successful and [outcome] decides which running steps succeed. *)
Definition executed_labels (pn : string -> option Q) (w : workflow)
  (r : run) (outcome : step -> bool) (j : job) : list string :=
  labels (executed (fst (run_steps pn w r outcome Success (steps j)))).

Definition all_succeed : step -> bool := fun _ => true.

(** The runs one event starts: one per matrix combination of the job. *)
Definition runs_for (j : job) (e : event) (run_id : string)
  (secrets : list (string * string)) : list run :=
  map (fun c => {| r_event := e; r_run_id := run_id;
                   r_secrets := secrets; r_matrix := c |})
      (matrix_combos (matrix (j_strategy j))).

(** Where a scalar sits inside a step. *)
Inductive site :=
| InName
| InWith (key : string)
| InEnv (key : string)
| InIf.

Definition keyed_refs (mk : string -> site) (kvs : list (string * template))
  : list (site * list string) :=
  flat_map (fun kv => map (fun p => (mk (fst kv), p)) (template_refs (snd kv)))
           kvs.

(** Every context property a step reads, with the place that reads it. *)
Definition step_refs (s : step) : list (site * list string) :=
  map (fun p => (InName, p)) (template_refs (s_name s))
  ++ keyed_refs InWith (s_with s)
  ++ keyed_refs InEnv (s_env s)
  ++ match s_if s with
     | Some e => map (fun p => (InIf, p)) (expr_refs e)
     | None => []
     end.

Definition job_refs (j : job) : list (string * site * list string) :=
  flat_map (fun s => map (fun sp => (step_label s, fst sp, snd sp))
                         (step_refs s))
           (steps j).

(** Properties read outside the steps: the concurrency group. *)
Definition workflow_level_refs (w : workflow) : list (list string) :=
  match w_concurrency w with
  | Some c => template_refs (group c)
  | None => []
  end.

(** *** Sample events and runs *)

(** A runner that reads no non-empty string as a number. *)
Definition no_numbers : string -> option Q := fun _ => None.

Definition sample_run (e : event) (run_id : string) : run :=
  {| r_event := e; r_run_id := run_id;
     r_secrets := [("DOCBUILD_TOKEN", "s3cr3t")];
     r_matrix := [("python-version", "3.10")] |}.

Definition push_to_main : event :=
  {| ev_name := "push"; ev_action := ""; ev_ref := "refs/heads/main";
     ev_head_ref := ""; ev_release_tag := "" |}.

Definition pull_request_opened : event :=
  {| ev_name := "pull_request"; ev_action := "opened";
     ev_ref := "refs/pull/9/merge"; ev_head_ref := "fix-docs";
     ev_release_tag := "" |}.

Definition release_published : event :=
  {| ev_name := "release"; ev_action := "published";
     ev_ref := "refs/tags/v0.14.0"; ev_head_ref := "";
     ev_release_tag := "v0.14.0" |}.

Definition pull_request_closed : event :=
  {| ev_name := "pull_request"; ev_action := "closed";
     ev_ref := "refs/pull/9/merge"; ev_head_ref := "fix-docs";
     ev_release_tag := "" |}.

(** Whether a step hands a secret to the action it uses. *)
Definition passes_secret (s : step) : bool :=
  existsb
    (fun kv =>
       existsb (fun p => match p with
                         | root :: _ => String.eqb root "secrets"
                         | [] => false
                         end)
               (template_refs (snd kv)))
    (s_with s).

(** Labels of the two checkouts of the documentation repository. *)
Definition without_token : string :=
  "Checkout statsmodels.github.io without token".

Definition with_token : string :=
  "Checkout statsmodels.github.io with token".

(** *** Vocabulary of the properties: failure handling *)

Definition no_status_call (s : step) : Prop :=
  match s_if s with
  | Some e => mentions_status e = false
  | None => True
  end.

(** Shell idioms by which a script would retry or swallow a failure. *)
Definition recovery_idioms : list string :=
  ["retry"; "until"; "while"; "||"; "set +e"; "trap"].

Definition script_recovers (s : step) : bool :=
  match s_run s with
  | Some script => existsb (fun i => Str.contains i script) recovery_idioms
  | None => false
  end.

(** Actions the job uses; none of them wraps another step to retry it. *)
Definition actions_used (j : job) : list string :=
  flat_map (fun s => match s_uses s with Some a => [a] | None => [] end)
           (steps j).

Definition skipped (entry : step * step_result) : Prop :=
  snd entry = Skipped.

(** An outcome in which the documentation build is the one step that
    fails, and the log it leaves on a push. *)
Definition docs_build_fails : step -> bool :=
  fun s => negb (String.eqb (step_label s) "Build documentation").

Definition log_before_failure : list (step * step_result) :=
  [(checkout, Ran true); (checkout_docs_without_token, Skipped);
   (checkout_docs_with_token, Ran true); (event_type, Ran true);
   (install_pandoc, Ran true); (install_graphviz, Ran true);
   (set_up_python, Ran true); (install_dependencies, Ran true);
   (install_statsmodels, Ran true)].

Definition log_after_failure : list (step * step_result) :=
  [(move_and_commit_documentation, Skipped); (push_changes, Skipped)].

(** *** Vocabulary of the properties: shape of the job *)

(** [sublist l1 l2]: [l1] is [l2] with some elements left out, the order
    kept. *)
Inductive sublist {A : Type} : list A -> list A -> Prop :=
| sub_nil : forall l, sublist [] l
| sub_take : forall x l1 l2, sublist l1 l2 -> sublist (x :: l1) (x :: l2)
| sub_skip : forall x l1 l2, sublist l1 l2 -> sublist l1 (x :: l2).

(** The five stages the job is described by. *)
Definition stages : list step :=
  [checkout; install_dependencies; build_documentation;
   move_and_commit_documentation; push_changes].

(** Whether the script of a [run:] step holds the given text. *)
Definition runs_script (fragment : string) (s : step) : bool :=
  match s_run s with
  | Some script => Str.contains fragment script
  | None => false
  end.

Definition conditional (s : step) : bool :=
  match s_if s with Some _ => true | None => false end.

(** *** Vocabulary of the properties: inputs from the environment *)

(** A context property is an input from the environment of the run when
    it is a secret, a configuration variable, an environment variable, a
    workflow input or a field of the event payload.  The run's own
    metadata in the [github] context (workflow name, event name, head ref,
    run id) and the job's matrix are not. *)
Definition is_input (path : list string) : bool :=
  match path with
  | root :: rest =>
      existsb (String.eqb root) ["secrets"; "vars"; "env"; "inputs"]
      || (String.eqb root "github"
          && match rest with
             | prop :: _ => String.eqb prop "event"
             | [] => false
             end)
  | [] => false
  end.

(** The inputs a job reads, each with the step and the key that reads
    it; and every other property the job reads. *)
Definition environment_inputs (j : job)
  : list (string * site * list string) :=
  filter (fun x => is_input (snd x)) (job_refs j).

Definition other_refs (j : job) : list (list string) :=
  filter (fun p => negb (is_input p)) (map snd (job_refs j)).

Definition docbuild_token : template :=
  [Interp (ECtx ["secrets"; "DOCBUILD_TOKEN"])].

Definition git_tag : template :=
  [Interp (ECtx ["github"; "event"; "release"; "tag_name"])].

(** *** Vocabulary of the properties: what a run hands to its steps *)

(** The same run with another secret store. *)
Definition with_secrets (r : run) (secrets : list (string * string)) : run :=
  {| r_event := r_event r; r_run_id := r_run_id r; r_secrets := secrets;
     r_matrix := r_matrix r |}.

Definition render_all (pn : string -> option Q) (w : workflow) (r : run)
  (kvs : list (string * template)) : list (string * string) :=
  map (fun kv => (fst kv, render_in pn w r Success (snd kv))) kvs.

(** What a step receives when it runs: its rendered name, its [with:]
    arguments and its [env:]. *)
Definition step_inputs (pn : string -> option Q) (w : workflow) (r : run)
  (s : step) : string * list (string * string) * list (string * string) :=
  (render_in pn w r Success (s_name s),
   render_all pn w r (s_with s),
   render_all pn w r (s_env s)).

(** Everything a run of the job hands to the steps it runs, in order. *)
Definition run_inputs (pn : string -> option Q) (w : workflow) (r : run)
  (outcome : step -> bool) (j : job)
  : list (string * list (string * string) * list (string * string)) :=
  map (step_inputs pn w r)
      (executed (fst (run_steps pn w r outcome Success (steps j)))).

(** The steps that run, in order. *)
Definition executed_steps (pn : string -> option Q) (w : workflow) (r : run)
  (outcome : step -> bool) (j : job) : list step :=
  executed (fst (run_steps pn w r outcome Success (steps j))).

(** A list of steps cut after its first failing step. *)
Fixpoint until_failure (outcome : step -> bool) (ss : list step)
  : list step :=
  match ss with
  | [] => []
  | s :: rest =>
      if outcome s then s :: until_failure outcome rest else [s]
  end.


End Actions.

(* ================================================================== *)
(** ** [simulate_seasonal_term] (notebook [robust_models_1.ipynb]) *)

Module Seasonal.

Local Open Scope Z_scope.

(** *** Python and numpy as far as the function uses them *)

Inductive exn := AssertionError | ZeroDivisionError | ValueError.

Inductive result (A : Type) :=
| Ok (a : A)
| Raise (e : exn).

Arguments Ok {A} a.
Arguments Raise {A} e.

Definition bind {A B : Type} (m : result A) (k : A -> result B) : result B :=
  match m with
  | Ok a => k a
  | Raise e => Raise e
  end.

Notation "'let*' x ':=' m 'in' k" := (bind m (fun x => k))
  (at level 10, x pattern, m at level 100, k at level 200).

(** A Python number, [int] or finite [float], is taken by its exact
    value.  [int(x)] truncates towards zero.  The infinities and NaN, on
    which [int()] raises, are not numbers of this reading. *)
Definition py_int (x : Q) : Z := Z.quot (Qnum x) (Z.pos (Qden x)).

Definition py_assert (b : bool) : result unit :=
  if b then Ok tt else Raise AssertionError.

Definition whole (x : Q) : Prop := exists z : Z, Qeq x (inject_Z z).

(** [harmonics if harmonics else default]: [None] and [0] are falsy. *)
Definition truthy_or (harmonics : option Z) (default : Z) : Z :=
  match harmonics with
  | Some h => if h =? 0 then default else h
  | None => default
  end.

(** [np.zeros(n)] refuses a negative length.  numpy also refuses, with
    [ValueError] or [MemoryError], a length the machine cannot hold; this
    reading has arrays of every length, and the properties that tell when
    a call returns keep to the lengths of [array_limit] below. *)
Definition np_zeros {F : Type} (zero : F) (n : Z) : result (list F) :=
  if n <? 0 then Raise ValueError else Ok (repeat zero (Z.to_nat n)).

(** [a[i] = v] for an index inside the array, the only kind the function
    writes; outside it numpy raises and this leaves the array alone. *)
Fixpoint set_at {F : Type} (i : nat) (v : F) (a : list F) : list F :=
  match a, i with
  | [], _ => []
  | _ :: rest, O => v :: rest
  | x :: rest, S i' => x :: set_at i' v rest
  end.

(** [a[start:]]: a negative start counts from the end and the bounds are
    clipped; note that [a[-0:]] is [a[0:]], the whole array. *)
Definition slice_from {F : Type} (start : Z) (a : list F) : list F :=
  let len := Z.of_nat (length a) in
  let i := if start <? 0 then Z.max (start + len) 0 else Z.min start len in
  skipn (Z.to_nat i) a.

(** What the function asks of its runtime: [float64] arithmetic with the
    trigonometric functions, Python's product of two numbers, and the
    global random generator.  They are taken as they come; nothing proved
    below depends on what they compute.

    - [times] is [periodicity * total_cycles], exact on ints and rounded
      on floats, for operands whose product is a finite number: a float
      product too large for a float is infinite in Python, and the
      assertion then raises [OverflowError] at [int(duration)]; the
      properties that tell what a call raises keep to [finite_product]
      below;
    - [two_pi_over p] is [2 * np.pi / float(p)] for a non-zero [p];
    - [randn] is one draw of [np.random.randn()], threading the state of
      the generator. *)
Class Runtime (F : Type) := {
  times : Q -> Q -> Q;
  fzero : F;
  fadd : F -> F -> F;
  fmul : F -> F -> F;
  fneg : F -> F;
  fcos : F -> F;
  fsin : F -> F;
  of_int : Z -> F;
  two_pi_over : Q -> F;
  rng : Type;
  randn : rng -> F * rng
}.

Section Simulate.

Context {F : Type} {rt : Runtime F}.

Fixpoint randn_n (n : nat) (g : rng) : list F * rng :=
  match n with
  | O => ([], g)
  | S n' =>
      let (x, g1) := randn g in
      let (xs, g2) := randn_n n' g1 in
      (x :: xs, g2)
  end.

(** [np.random.randn(n)] refuses a negative length; as for [np_zeros],
    the reading has vectors of every length. *)
Definition np_random_randn (n : Z) (g : rng) : result (list F * rng) :=
  if n <? 0 then Raise ValueError else Ok (randn_n (Z.to_nat n) g).

Definition np_sum (a : list F) : F := fold_left fadd a fzero.

Definition zeros_like (a : list F) : list F := repeat fzero (length a).

(** Body of [for j in range(1, harmonics + 1)]. *)
Definition harmonic_step (noise_std lambda_p : F)
  (gamma_jt gamma_star_jt : list F)
  (acc : list F * list F * rng) (j : nat) : list F * list F * rng :=
  let '(gamma_jtp1, gamma_star_jtp1, g) := acc in
  let cos_j := fcos (fmul lambda_p (of_int (Z.of_nat j))) in
  let sin_j := fsin (fmul lambda_p (of_int (Z.of_nat j))) in
  let (e1, g1) := randn g in
  let gamma_jtp1 :=
    set_at (j - 1)
      (fadd (fadd (fmul (nth (j - 1) gamma_jt fzero) cos_j)
                  (fmul (nth (j - 1) gamma_star_jt fzero) sin_j))
            (fmul noise_std e1))
      gamma_jtp1 in
  let (e2, g2) := randn g1 in
  let gamma_star_jtp1 :=
    set_at (j - 1)
      (fadd (fadd (fmul (fneg (nth (j - 1) gamma_jt fzero)) sin_j)
                  (fmul (nth (j - 1) gamma_star_jt fzero) cos_j))
            (fmul noise_std e2))
      gamma_star_jtp1 in
  (gamma_jtp1, gamma_star_jtp1, g2).

(** Body of [for t in range(total_timesteps)]. *)
Definition time_step (noise_std lambda_p : F) (harmonics : Z)
  (st : list F * list F * list F * rng) (t : nat)
  : list F * list F * list F * rng :=
  let '(series, gamma_jt, gamma_star_jt, g) := st in
  let '(gamma_jtp1, gamma_star_jtp1, g') :=
    fold_left (harmonic_step noise_std lambda_p gamma_jt gamma_star_jt)
              (seq 1 (Z.to_nat harmonics))
              (zeros_like gamma_jt, zeros_like gamma_star_jt, g) in
  (set_at t (np_sum gamma_jtp1) series, gamma_jtp1, gamma_star_jtp1, g').

Definition series_of (st : list F * list F * list F * rng) : list F :=
  let '(series, _, _, _) := st in series.

(** The condition of [assert duration == int(duration)]. *)
Definition assertion_passes (periodicity total_cycles : Q) : bool :=
  let duration := times periodicity total_cycles in
  Qeq_bool duration (inject_Z (py_int duration)).

(** The function up to and including its loop: the padded series of
    [100 * duration] samples, and the generator after it. *)
Definition simulate_padded (periodicity total_cycles : Q) (noise_std : F)
  (harmonics : option Z) (g : rng) : result (list F * rng) :=
  let duration := times periodicity total_cycles in
  let* _ := py_assert (Qeq_bool duration (inject_Z (py_int duration))) in
  let duration := py_int duration in
  let harmonics :=
    truthy_or harmonics (Qfloor (Qdiv periodicity (inject_Z 2))) in
  let* lambda_p :=
    if Qeq_bool periodicity (inject_Z 0) then Raise ZeroDivisionError
    else Ok (two_pi_over periodicity) in
  let* (e, g) := np_random_randn harmonics g in
  let gamma_jt := map (fmul noise_std) e in
  let* (e, g) := np_random_randn harmonics g in
  let gamma_star_jt := map (fmul noise_std) e in
  let total_timesteps := 100 * duration in
  let* series := np_zeros fzero total_timesteps in
  let '(series, _, _, g) :=
    fold_left (time_step noise_std lambda_p harmonics)
              (seq 0 (Z.to_nat total_timesteps))
              (series, gamma_jt, gamma_star_jt, g) in
  Ok (series, g).

(** The whole function: the padded run, then
    [wanted_series = series[-duration:]]. *)
Definition simulate_seasonal_term (periodicity total_cycles : Q)
  (noise_std : F) (harmonics : option Z) (g : rng)
  : result (list F * rng) :=
  let* (series, g) :=
    simulate_padded periodicity total_cycles noise_std harmonics g in
  let duration := py_int (times periodicity total_cycles) in
  let wanted_series := slice_from (- duration) series in
  Ok (wanted_series, g).

End Simulate.

(** A stand-in runtime good enough to run the function: integers for
    [float64], the exact product, a constant in place of the cosine and
    of the sine, and draws that count up. *)
Definition toy_runtime : Runtime Z :=
  {| times := Qmult;
     fzero := 0;
     fadd := Z.add;
     fmul := Z.mul;
     fneg := Z.opp;
     fcos := fun _ => 1;
     fsin := fun _ => 0;
     of_int := fun z => z;
     two_pi_over := fun _ => 1;
     rng := nat;
     randn := fun n => (Z.of_nat n, S n) |}.

Definition toy (periodicity total_cycles : Q) (harmonics : option Z)
  : result (list Z * nat) :=
  simulate_seasonal_term (rt := toy_runtime) periodicity total_cycles 1
    harmonics O.

(** *** Vocabulary of the properties: the run as a sequence of states *)

Section Trajectory.

Context {F : Type} {rt : Runtime F}.

(** One pass of [for j in range(1, harmonics + 1)] over fresh arrays:
    the state [(gamma_jt, gamma_star_jt, generator)] after a time step. *)
Definition advance (noise_std lambda_p : F) (harmonics : Z)
  (st : list F * list F * rng) : list F * list F * rng :=
  let '(gamma_jt, gamma_star_jt, g) := st in
  fold_left (harmonic_step noise_std lambda_p gamma_jt gamma_star_jt)
            (seq 1 (Z.to_nat harmonics))
            (zeros_like gamma_jt, zeros_like gamma_star_jt, g).

(** The states after the first [n] time steps. *)
Fixpoint trajectory (noise_std lambda_p : F) (harmonics : Z) (n : nat)
  (st : list F * list F * rng) : list (list F * list F * rng) :=
  match n with
  | O => []
  | S n' =>
      let st' := advance noise_std lambda_p harmonics st in
      st' :: trajectory noise_std lambda_p harmonics n' st'
  end.

(** The parts of a state. *)
Definition gamma_of (st : list F * list F * rng) : list F := fst (fst st).

Definition gamma_star_of (st : list F * list F * rng) : list F :=
  snd (fst st).

Definition generator_of (st : list F * list F * rng) : rng := snd st.

(** The state the loop starts from: two vectors of scaled draws. *)
Definition initial_state (noise_std : F) (harmonics : Z) (g : rng)
  : list F * list F * rng :=
  let (e1, g1) := randn_n (Z.to_nat harmonics) g in
  let (e2, g2) := randn_n (Z.to_nat harmonics) g1 in
  (map (fmul noise_std) e1, map (fmul noise_std) e2, g2).

(** The generator after [n] draws. *)
Definition skip_draws (n : nat) (g : rng) : rng :=
  Nat.iter n (fun g => snd (randn g)) g.

(** The number of harmonics a call works with. *)
Definition harmonics_in_use (periodicity : Q) (harmonics : option Z) : Z :=
  truthy_or harmonics (Qfloor (Qdiv periodicity (inject_Z 2))).

End Trajectory.

(** *** Vocabulary of the properties: the calls within reach *)

(** The reading takes every number by its exact value and has arrays of
    every length.  Python and numpy have limits the function never checks
    for: a float ends near [1.8e308], and an array has to fit in memory.
    A property that tells what a call raises, or that it returns, speaks
    of the calls within these limits. *)

(** A number well inside the range of a float. *)
Definition modest (x : Q) : Prop :=
  Qlt (inject_Z (- 10 ^ 300)) x /\ Qlt x (inject_Z (10 ^ 300)).

(** Operands whose product Python forms as a finite number. *)
Definition finite_product (periodicity total_cycles : Q) : Prop :=
  modest periodicity /\ modest total_cycles
  /\ modest (Qmult periodicity total_cycles).

(** A length every machine that runs the notebook has room for; its own
    call asks for [30000] samples. *)
Definition array_limit : Z := 2 ^ 16.

(** *** The cell that calls the function *)

(** Errors of the cell: those of the function, and a list index out of
    range. *)
Inductive cell_exn :=
| Exn (e : exn)
| IndexError.

Inductive cell_result (A : Type) :=
| Done (a : A)
| Failed (e : cell_exn).

Arguments Done {A} a.
Arguments Failed {A} e.

Definition and_then {A B : Type} (m : cell_result A)
  (k : A -> cell_result B) : cell_result B :=
  match m with
  | Done a => k a
  | Failed e => Failed e
  end.

Notation "'do*' x ':=' m 'in' k" := (and_then m (fun x => k))
  (at level 10, x pattern, m at level 100, k at level 200).

Definition of_call {A : Type} (m : result A) : cell_result A :=
  match m with
  | Ok a => Done a
  | Raise e => Failed (Exn e)
  end.

(** [l[i]] on a Python list. *)
Definition py_index {A : Type} (l : list A) (i : nat) : cell_result A :=
  match nth_error l i with
  | Some a => Done a
  | None => Failed IndexError
  end.

(** [a / b] on two ints: the exact quotient, unless [b] is zero. *)
Definition py_truediv (a b : Z) : cell_result Q :=
  if b =? 0 then Failed (Exn ZeroDivisionError)
  else Done (Qdiv (inject_Z a) (inject_Z b)).

Definition same_length {A : Type} (rows : list (list A)) : bool :=
  match rows with
  | [] => true
  | row :: rest =>
      forallb (fun x => Nat.eqb (length x) (length row)) rest
  end.

Section Cell.

Context {F : Type} {rt : Runtime F}.

(** [np.sum(rows, axis=0)]: the sums down the columns of equally long
    rows; rows of different lengths make no array. *)
Definition np_sum_axis0 (rows : list (list F)) : cell_result (list F) :=
  if same_length rows then
    match rows with
    | [] => Done []
    | row :: _ =>
        Done (map (fun i => np_sum (map (fun x => nth i x fzero) rows))
                  (seq 0 (length row)))
    end
  else Failed (Exn ValueError).

(** A frame from named columns, which must be equally long. *)
Definition data_frame (columns : list (string * list F))
  : cell_result (list (string * list F)) :=
  if same_length (map snd columns) then Done columns
  else Failed (Exn ValueError).

(** [for ix, _ in enumerate(periodicities): ... terms.append(s)]. *)
Fixpoint simulate_terms (duration : Z) (periodicities num_harmonics std : list Z)
  (ixs : list nat) (terms : list (list F)) (g : rng)
  : cell_result (list (list F) * rng) :=
  match ixs with
  | [] => Done (terms, g)
  | ix :: rest =>
      do* p := py_index periodicities ix in
      do* p' := py_index periodicities ix in
      do* cycles := py_truediv duration p' in
      do* h := py_index num_harmonics ix in
      do* sd := py_index std ix in
      do* (s, g) :=
        of_call (simulate_seasonal_term (inject_Z p) cycles (of_int sd)
                   (Some h) g) in
      simulate_terms duration periodicities num_harmonics std rest
        (terms ++ [s]) g
  end.

(** The cell, from the seeded generator to the frame. *)
Definition seasonal_cell (seeded : rng)
  : cell_result (list (string * list F)) :=
  let duration := 100 * 3 in
  let periodicities := [10; 100] in
  let num_harmonics := [3; 2] in
  let std := [2; 3] in
  do* (terms, _) :=
    simulate_terms duration periodicities num_harmonics std
      (seq 0 (length periodicities)) [] seeded in
  do* first := py_index terms 0 in
  let terms := terms ++ [map (fun x => fmul x (of_int 10))
                             (repeat (of_int 1) (length first))] in
  do* series := np_sum_axis0 terms in
  do* t0 := py_index terms 0 in
  do* t1 := py_index terms 1 in
  do* t2 := py_index terms 2 in
  data_frame [("total", series); ("10(3)", t0); ("100(2)", t1);
              ("level", t2)].

End Cell.

End Seasonal.

(* ================================================================== *)
(** ** Data preparation of the notebook [glm_formula.ipynb] *)

Module Glm.

(** *** Frames *)

(** A [KeyError] with the labels it reports as not found. *)
Inductive exn := KeyError (names : list string).

Inductive result (A : Type) :=
| Ok (a : A)
| Raise (e : exn).

Arguments Ok {A} a.
Arguments Raise {A} e.

Definition bind {A B : Type} (m : result A) (k : A -> result B) : result B :=
  match m with
  | Ok a => k a
  | Raise e => Raise e
  end.

Notation "x <- m ;; k" := (bind m (fun x => k))
  (at level 61, m at next level, right associativity).

(** A frame: its columns in order, each a name with one value per row.
    The columns of a frame are equally long and differently named. *)
Definition frame (F : Type) : Type := list (string * list F).

Definition columns {F : Type} (df : frame F) : list string := map fst df.

(** [df[name]]. *)
Fixpoint get {F : Type} (name : string) (df : frame F) : result (list F) :=
  match df with
  | [] => Raise (KeyError [name])
  | (n, col) :: rest => if String.eqb name n then Ok col else get name rest
  end.

Fixpoint drop {F : Type} (name : string) (df : frame F) : frame F :=
  match df with
  | [] => []
  | (n, col) :: rest =>
      if String.eqb name n then rest else (n, col) :: drop name rest
  end.

(** [df.pop(name)]: the column, and the frame without it. *)
Definition pop {F : Type} (name : string) (df : frame F)
  : result (list F * frame F) :=
  col <- get name df ;; Ok (col, drop name df).

(** [del df[name]]. *)
Definition del {F : Type} (name : string) (df : frame F) : result (frame F) :=
  _ <- get name df ;; Ok (drop name df).

(** [df[name] = col] for a column that carries the index of [df]: an
    existing column is replaced where it stands, a new one goes last. *)
Fixpoint set {F : Type} (name : string) (col : list F) (df : frame F)
  : frame F :=
  match df with
  | [] => [(name, col)]
  | (n, c) :: rest =>
      if String.eqb name n then (n, col) :: rest
      else (n, c) :: set name col rest
  end.

Fixpoint collect {F : Type} (names : list string) (df : frame F)
  : result (frame F) :=
  match names with
  | [] => Ok []
  | name :: rest =>
      col <- get name df ;;
      others <- collect rest df ;;
      Ok ((name, col) :: others)
  end.

(** The labels asked for that the frame does not have. *)
Definition missing {F : Type} (names : list string) (df : frame F)
  : list string :=
  filter (fun n => negb (existsb (String.eqb n) (columns df))) names.

(** [df[[name, ...]]]: the named columns in the order asked for; when
    some are not found the error reports all of them. *)
Definition select {F : Type} (names : list string) (df : frame F)
  : result (frame F) :=
  match missing names df with
  | [] => collect names df
  | _ :: _ => Raise (KeyError (missing names df))
  end.

(** Row by row arithmetic of two columns with the same index. *)
Fixpoint rowwise {F : Type} (op : F -> F -> F) (a b : list F) : list F :=
  match a, b with
  | x :: a', y :: b' => op x y :: rowwise op a' b'
  | _, _ => []
  end.

(** *** The first cell *)

Definition formula : string :=
  "SUCCESS ~ LOWINC + PERASIAN + PERBLACK + PERHISP + PCTCHRT + "
  ++ "           PCTYRRND + PERMINTE*AVYRSEXP*AVSALK + PERSPENK*PTRATIO*PCTAF".

(** The formula of the cell that defines [double_it]. *)
Definition formula_double_it : string :=
  "SUCCESS ~ double_it(LOWINC) + PERASIAN + PERBLACK + PERHISP + PCTCHRT + "
  ++ "           PCTYRRND + PERMINTE*AVYRSEXP*AVSALK + PERSPENK*PTRATIO*PCTAF".

Definition selected : list string :=
  ["NABOVE"; "NBELOW"; "LOWINC"; "PERASIAN"; "PERBLACK"; "PERHISP";
   "PCTCHRT"; "PCTYRRND"; "PERMINTE"; "AVYRSEXP"; "AVSALK"; "PERSPENK";
   "PTRATIO"; "PCTAF"].

Section Prepare.

(** [float64] addition and division, taken as they come. *)
Variable F : Type.
Variables fadd fdiv : F -> F -> F.

(** From [dta = star98[[...]].copy()] to [dta["SUCCESS"] = endog]. *)
Definition prepare (star98 : frame F) : result (frame F) :=
  dta <- select selected star98 ;;
  nabove <- get "NABOVE" dta ;;
  nabove' <- get "NABOVE" dta ;;
  popped <- pop "NBELOW" dta ;;
  let (nbelow, dta) := popped in
  let endog := rowwise fdiv nabove (rowwise fadd nabove' nbelow) in
  dta <- del "NABOVE" dta ;;
  Ok (set "SUCCESS" endog dta).

End Prepare.

(** *** Vocabulary of the properties: the names a formula mentions *)

Definition name_char (c : ascii) : bool :=
  let n := nat_of_ascii c in
  (Nat.leb 65 n && Nat.leb n 90) || (Nat.leb 97 n && Nat.leb n 122)
  || (Nat.leb 48 n && Nat.leb n 57) || Nat.eqb n 95.

(** The maximal runs of letters, digits and underscores of a text, in
    order; [cur] is the run being read, last character first. *)
Fixpoint names_from (s : string) (cur : list ascii) : list string :=
  let flush := match cur with
               | [] => []
               | _ => [string_of_list_ascii (rev cur)]
               end in
  match s with
  | EmptyString => flush
  | String c rest =>
      if name_char c then names_from rest (c :: cur)
      else flush ++ names_from rest []
  end.

Definition names_of (s : string) : list string := names_from s [].

Definition regressors : list string :=
  ["LOWINC"; "PERASIAN"; "PERBLACK"; "PERHISP"; "PCTCHRT"; "PCTYRRND";
   "PERMINTE"; "AVYRSEXP"; "AVSALK"; "PERSPENK"; "PTRATIO"; "PCTAF"].

(** A table of two rows over the integers, with one column more than the
    cell selects. *)
Definition sample_table : frame Z :=
  ("DISTRICT", [1; 2]%Z)
  :: map (fun n => (n, [Z.of_nat (String.length n); 4%Z])) selected.

End Glm.

(* ================================================================== *)
(** * Properties of the workflow *)

Import Expr Actions.

(* ------------------------------------------------------------------ *)
(** *** The embedding spells the file *)

Example conditions_source :
  map (fun s => option_map expr_source (s_if s)) (steps build)
  = [None;
     Some "github.event_name == 'pull_request'";
     Some "github.event_name == 'release' || github.event_name == 'push'";
     None; None; None; None; None; None; None; None;
     Some "github.event_name == 'release' || github.event_name == 'push'"].
Proof. reflexivity. Qed.

Example group_source :
  option_map (fun c => template_source (group c))
             (w_concurrency generate_documentation)
  = Some "${{ github.workflow }}-${{ github.head_ref || github.run_id }}".
Proof. reflexivity. Qed.

Example jobs_of_the_file :
  map fst (jobs generate_documentation) = ["build"]
  /\ assoc "build" (jobs generate_documentation) = Some build.
Proof. split; reflexivity. Qed.

Example labels_build :
  labels (steps build)
  = ["Checkout";
     "Checkout statsmodels.github.io without token";
     "Checkout statsmodels.github.io with token";
     "Event type"; "Install pandoc"; "Install graphviz";
     "Set up Python ${{ matrix.python-version }}";
     "Install dependencies"; "Install statsmodels"; "Build documentation";
     "Move and commit documentation"; "Push changes"].
Proof. reflexivity. Qed.

Lemma labels_distinct : NoDup (labels (steps build)).
Proof.
  rewrite labels_build.
  repeat (constructor; [simpl; intuition discriminate |]).
  constructor.
Qed.

Lemma patterns_literal :
  forall t pats p,
    In t (w_on generate_documentation) -> t_branches t = Some pats ->
    In p pats -> literal_pattern p = true.
Proof.
  intros t pats p Ht Hb Hp. simpl in Ht.
  destruct Ht as [<- | [<- | [<- | []]]]; simpl in Hb; try discriminate.
  injection Hb as <-. destruct Hp as [<- | []]. reflexivity.
Qed.

(* ------------------------------------------------------------------ *)
(** *** Triggers *)

Lemma strip_prefix_spec :
  forall p s rest, Str.strip_prefix p s = Some rest <-> s = (p ++ rest)%string.
Proof.
  induction p as [| a p IH]; intros s rest; simpl.
  - split; [intros [= ->]; reflexivity | intros ->; reflexivity].
  - destruct s as [| b s]; [split; discriminate |].
    destruct (Ascii.eqb a b) eqn:E.
    + apply Ascii.eqb_eq in E. subst b. rewrite IH.
      split; [intros ->; reflexivity | intros [= ->]; reflexivity].
    + apply Ascii.eqb_neq in E.
      split; [discriminate | intros [= -> _]; contradiction].
Qed.

Lemma branches_pass_main :
  forall t e, t_branches t = Some ["main"] ->
    (branches_pass t e = true <-> ev_ref e = "refs/heads/main").
Proof.
  intros t e Hb. unfold branches_pass, branch_of_ref. rewrite Hb. split.
  - destruct (Str.strip_prefix "refs/heads/" (ev_ref e)) as [b |] eqn:E;
      [| discriminate].
    apply strip_prefix_spec in E. simpl existsb. rewrite orb_false_r.
    unfold pattern_matches. simpl literal_pattern. rewrite andb_true_l.
    intros Hm. apply String.eqb_eq in Hm. subst b. exact E.
  - intros ->. reflexivity.
Qed.

(** An event that starts the workflow bears one of the three names under
    [on:]. *)
Lemma trigger_names :
  forall e, triggers generate_documentation e = true ->
    ev_name e = "release" \/ ev_name e = "push"
    \/ ev_name e = "pull_request".
Proof.
  intros e H. unfold triggers in H.
  cbn [generate_documentation w_on existsb] in H.
  rewrite orb_false_r in H. unfold trigger_matches in H.
  cbn [t_event] in H.
  rewrite !orb_true_iff, !andb_true_iff, !String.eqb_eq in H.
  intuition auto.
Qed.

(** C4. The workflow starts on exactly three kinds of event: a release
    whose activity type is [published], a push whose ref is the branch
    [main], and a pull-request event; no other event name, release
    activity or pushed ref starts it.  The file writes no [types:] under
    [pull_request], so the pull-request events that start it are those of
    the platform's default activity types, [opened], [synchronize] and
    [reopened]. *)
Theorem trigger_surface :
  forall e : event,
    (triggers generate_documentation e = true ->
       (ev_name e = "release" /\ ev_action e = "published")
       \/ (ev_name e = "push" /\ ev_ref e = "refs/heads/main")
       \/ ev_name e = "pull_request")
    /\ (triggers generate_documentation e = true <->
          (ev_name e = "release" /\ ev_action e = "published")
          \/ (ev_name e = "push" /\ ev_ref e = "refs/heads/main")
          \/ (ev_name e = "pull_request"
              /\ (ev_action e = "opened" \/ ev_action e = "synchronize"
                  \/ ev_action e = "reopened"))).
Proof.
  intros e.
  assert (H : triggers generate_documentation e = true <->
          (ev_name e = "release" /\ ev_action e = "published")
          \/ (ev_name e = "push" /\ ev_ref e = "refs/heads/main")
          \/ (ev_name e = "pull_request"
              /\ (ev_action e = "opened" \/ ev_action e = "synchronize"
                  \/ ev_action e = "reopened"))).
  { unfold triggers.
    cbn [generate_documentation w_on existsb]. rewrite orb_false_r.
    rewrite !orb_true_iff. unfold trigger_matches.
    rewrite !andb_true_iff.
    rewrite (branches_pass_main
               {| t_event := "push"; t_types := None;
                  t_branches := Some ["main"] |} e eq_refl).
    unfold types_pass, branches_pass.
    cbn [t_event t_types t_branches].
    change (default_types "push") with (@None (list string)).
    change (default_types "pull_request")
      with (Some ["opened"; "synchronize"; "reopened"]).
    cbn [existsb].
    rewrite !orb_false_r. rewrite !orb_true_iff. rewrite !String.eqb_eq.
    intuition congruence. }
  split; [| exact H].
  intros T. apply H in T. tauto.
Qed.

(** A pull request that is closed starts no run, one that receives new
    commits does. *)
Example closed_pull_request_starts_nothing :
  triggers generate_documentation pull_request_closed = false
  /\ triggers generate_documentation
       {| ev_name := "pull_request"; ev_action := "synchronize";
          ev_ref := "refs/pull/9/merge"; ev_head_ref := "fix-docs";
          ev_release_tag := "" |} = true.
Proof. split; reflexivity. Qed.

(* ------------------------------------------------------------------ *)
(** *** Facts about the runner *)

Section RunnerFacts.

Variable pn : string -> option Q.
Variable w : workflow.
Variable r : run.

(** The log lists every step of the job once, in file order. *)
Lemma run_steps_log :
  forall outcome ss st,
    map fst (fst (run_steps pn w r outcome st ss)) = ss.
Proof.
  intros outcome ss. induction ss as [| s ss IH]; intros st; simpl.
  - reflexivity.
  - destruct (step_runs pn w r st s).
    + specialize (IH (after_step st s (outcome s))).
      destruct (run_steps pn w r outcome (after_step st s (outcome s)) ss).
      simpl in *. now rewrite IH.
    + specialize (IH st).
      destruct (run_steps pn w r outcome st ss). simpl in *. now rewrite IH.
Qed.

(** A step that ran belongs to the job and passed its condition. *)
Lemma executed_guard :
  forall outcome ss st s,
    In s (executed (fst (run_steps pn w r outcome st ss))) ->
    In s ss /\ exists st', step_runs pn w r st' s = true.
Proof.
  intros outcome ss. induction ss as [| s0 ss IH]; intros st s; simpl.
  - intros [].
  - destruct (step_runs pn w r st s0) eqn:G.
    + specialize (IH (after_step st s0 (outcome s0)) s).
      destruct (run_steps pn w r outcome (after_step st s0 (outcome s0)) ss).
      simpl in *. intros [<- | Hin].
      * split; [now left | now exists st].
      * destruct (IH Hin) as [H1 H2]. split; [now right | exact H2].
    + specialize (IH st s).
      destruct (run_steps pn w r outcome st ss). simpl in *.
      intros Hin. destruct (IH Hin) as [H1 H2]. split; [now right | exact H2].
Qed.

Lemma executed_label_guard :
  forall outcome j l,
    In l (executed_labels pn w r outcome j) ->
    exists s st, In s (steps j) /\ step_label s = l
                 /\ step_runs pn w r st s = true.
Proof.
  intros outcome j l Hin. unfold executed_labels, labels in Hin.
  apply in_map_iff in Hin. destruct Hin as [s [Hl Hs]].
  apply executed_guard in Hs. destruct Hs as [Hs [st Hst]].
  now exists s, st.
Qed.

(** Once the job has failed, a step whose condition calls no status check
    function is skipped. *)
Lemma skipped_after_failure :
  forall s, match s_if s with
            | Some e => mentions_status e = false
            | None => True
            end ->
    step_runs pn w r Failure s = false.
Proof.
  intros s H. unfold step_runs. destruct (s_if s) as [e |].
  - rewrite H. reflexivity.
  - reflexivity.
Qed.

Lemma run_steps_failed :
  forall outcome ss,
    Forall (fun s => match s_if s with
                     | Some e => mentions_status e = false
                     | None => True
                     end) ss ->
    run_steps pn w r outcome Failure ss
    = (map (fun s => (s, Skipped)) ss, Failure).
Proof.
  intros outcome ss H. induction H as [| s ss Hs _ IH]; simpl.
  - reflexivity.
  - rewrite (skipped_after_failure s Hs), IH. reflexivity.
Qed.

End RunnerFacts.

(** A step of the build job is known by its label. *)
Lemma step_by_label :
  forall s, In s (steps build) ->
    forall s', In s' (steps build) -> step_label s = step_label s' -> s = s'.
Proof.
  intros s Hs s' Hs'. simpl in Hs, Hs'.
  repeat (destruct Hs as [<- | Hs]; [| try contradiction]);
    repeat (destruct Hs' as [<- | Hs']; [| try contradiction]);
    intros H; first [reflexivity | discriminate H].
Qed.

Lemma in_build_push_changes : In push_changes (steps build).
Proof. simpl. tauto. Qed.

Lemma in_build_move_and_commit :
  In move_and_commit_documentation (steps build).
Proof. simpl. tauto. Qed.

Lemma in_build_without_token : In checkout_docs_without_token (steps build).
Proof. simpl. tauto. Qed.

Lemma in_build_with_token : In checkout_docs_with_token (steps build).
Proof. simpl. tauto. Qed.

(** If the step labelled as [s] ran, [s] passed its condition. *)
Lemma ran_passed :
  forall pn r outcome s,
    In s (steps build) ->
    In (step_label s)
       (executed_labels pn generate_documentation r outcome build) ->
    exists st, step_runs pn generate_documentation r st s = true.
Proof.
  intros pn r outcome s Hs Hin.
  apply executed_label_guard in Hin.
  destruct Hin as [s' [st [Hs' [Hl Hst]]]].
  rewrite (step_by_label s Hs s' Hs' (eq_sym Hl)). now exists st.
Qed.

Example release_run :
  executed_labels no_numbers generate_documentation
    (sample_run release_published "3") all_succeed build
  = ["Checkout"; with_token; "Event type"; "Install pandoc";
     "Install graphviz"; "Set up Python ${{ matrix.python-version }}";
     "Install dependencies"; "Install statsmodels"; "Build documentation";
     "Move and commit documentation"; "Push changes"].
Proof. reflexivity. Qed.

Example pull_request_run :
  executed_labels no_numbers generate_documentation
    (sample_run pull_request_opened "4") all_succeed build
  = ["Checkout"; without_token; "Event type"; "Install pandoc";
     "Install graphviz"; "Set up Python ${{ matrix.python-version }}";
     "Install dependencies"; "Install statsmodels"; "Build documentation";
     "Move and commit documentation"].
Proof. reflexivity. Qed.

Example git_tag_on_release :
  render_in no_numbers generate_documentation
    (sample_run release_published "3") Success git_tag = "v0.14.0".
Proof. reflexivity. Qed.

Example git_tag_on_push :
  render_in no_numbers generate_documentation
    (sample_run push_to_main "1") Success git_tag = "".
Proof. reflexivity. Qed.

Example runs_for_push :
  runs_for build push_to_main "1" [("DOCBUILD_TOKEN", "s3cr3t")]
  = [sample_run push_to_main "1"].
Proof. reflexivity. Qed.

(* ------------------------------------------------------------------ *)
(** *** Event gates of the steps *)

Ltac in_list := simpl; repeat (first [left; reflexivity | right]).

Ltac open_run r :=
  destruct r as [[n a rf h t] id sec mx]; cbn [r_event ev_name] in *.

Lemma release_or_push_gate :
  forall pn r st s,
    s_if s = Some on_release_or_push ->
    ev_name (r_event r) = "pull_request" ->
    step_runs pn generate_documentation r st s = false.
Proof.
  intros pn r st s Hs Hn. open_run r. subst n.
  unfold step_runs. rewrite Hs. destruct st; reflexivity.
Qed.

Lemma pull_request_gate :
  forall pn r st s,
    s_if s = Some on_pull_request ->
    ev_name (r_event r) = "release" \/ ev_name (r_event r) = "push" ->
    step_runs pn generate_documentation r st s = false.
Proof.
  intros pn r st s Hs Hn. open_run r. unfold step_runs. rewrite Hs.
  destruct Hn; subst n; destruct st; reflexivity.
Qed.

(** C1. On every event that starts the workflow: whichever steps fail,
    [Push changes] runs only if the event is a release or a push; when the
    steps before it succeed it does run on a release and on a push; and on
    a pull request it never runs. *)
Theorem push_changes_gate :
  forall pn r,
    triggers generate_documentation (r_event r) = true ->
    (forall outcome,
        In "Push changes"
           (executed_labels pn generate_documentation r outcome build) ->
        ev_name (r_event r) = "release" \/ ev_name (r_event r) = "push")
    /\ (In "Push changes"
           (executed_labels pn generate_documentation r all_succeed build)
        <-> ev_name (r_event r) = "release" \/ ev_name (r_event r) = "push")
    /\ (ev_name (r_event r) = "pull_request" ->
        forall outcome,
          ~ In "Push changes"
               (executed_labels pn generate_documentation r outcome build)).
Proof.
  intros pn r Ht.
  assert (Hpr : ev_name (r_event r) = "pull_request" ->
                forall outcome,
                  ~ In "Push changes"
                       (executed_labels pn generate_documentation r outcome
                          build)).
  { intros Hn outcome Hin.
    apply (ran_passed pn r outcome push_changes in_build_push_changes) in Hin.
    destruct Hin as [st Hst].
    rewrite (release_or_push_gate pn r st push_changes eq_refl Hn) in Hst.
    discriminate. }
  destruct (trigger_names _ Ht) as [Hn | [Hn | Hn]].
  - repeat split; try tauto; try exact Hpr.
    intros _. open_run r. subst n. vm_compute. tauto.
  - repeat split; try tauto; try exact Hpr.
    intros _. open_run r. subst n. vm_compute. tauto.
  - repeat split; try exact Hpr.
    + intros outcome Hin. destruct (Hpr Hn outcome Hin).
    + intros Hin. destruct (Hpr Hn all_succeed Hin).
    + rewrite Hn. intros [H | H]; discriminate H.
Qed.

Lemma push_changes_gate_witness :
  triggers generate_documentation push_to_main = true
  /\ (In "Push changes"
          (executed_labels no_numbers generate_documentation
             (sample_run push_to_main "1") all_succeed build)
       <-> ev_name push_to_main = "release" \/ ev_name push_to_main = "push").
Proof.
  split; [reflexivity |].
  exact (proj1 (proj2 (push_changes_gate no_numbers
                         (sample_run push_to_main "1") eq_refl))).
Defined.

(** C2, as the claim words it, fails: on a pull request the step
    [Move and commit documentation] runs, although the event is neither a
    release nor a push. *)
Lemma commit_runs_on_pull_request :
  let r := sample_run pull_request_opened "1" in
  triggers generate_documentation (r_event r) = true
  /\ In "Move and commit documentation"
        (executed_labels no_numbers generate_documentation r all_succeed build)
  /\ ~ (ev_name (r_event r) = "release" \/ ev_name (r_event r) = "push").
Proof.
  cbv zeta. split; [reflexivity |]. split.
  - vm_compute. tauto.
  - intros [H | H]; discriminate H.
Qed.

(** C2, amended. [Move and commit documentation] has no condition: on
    every event that starts the workflow (release, push and pull request
    alike) it runs once the steps before it have succeeded. *)
Theorem commit_on_every_event :
  forall pn r,
    triggers generate_documentation (r_event r) = true ->
    s_if move_and_commit_documentation = None
    /\ In "Move and commit documentation"
          (executed_labels pn generate_documentation r all_succeed build).
Proof.
  intros pn r Ht. split; [reflexivity |].
  destruct (trigger_names _ Ht) as [Hn | [Hn | Hn]];
    open_run r; subst n; vm_compute; tauto.
Qed.

Lemma commit_on_every_event_witness :
  triggers generate_documentation pull_request_opened = true
  /\ In "Move and commit documentation"
        (executed_labels no_numbers generate_documentation
           (sample_run pull_request_opened "1") all_succeed build).
Proof.
  split; [reflexivity |].
  exact (proj2 (commit_on_every_event no_numbers
                  (sample_run pull_request_opened "1") eq_refl)).
Defined.

(** C8. For each of the events [pull_request], [push] and [release],
    exactly one of the two [Checkout statsmodels.github.io] steps runs
    (the first checkout having succeeded): the one without token exactly
    on [pull_request], the one with the [DOCBUILD_TOKEN] secret exactly on
    [release] and [push]; in a pull-request run no step that ran, whatever
    failed, hands a secret to its action. *)
Theorem docs_checkout_exclusive :
  forall pn r,
    In (ev_name (r_event r)) ["pull_request"; "push"; "release"] ->
    let ran := executed_labels pn generate_documentation r all_succeed build in
    (In without_token ran <-> ev_name (r_event r) = "pull_request")
    /\ (In with_token ran <->
        ev_name (r_event r) = "release" \/ ev_name (r_event r) = "push")
    /\ (In without_token ran \/ In with_token ran)
    /\ ~ (In without_token ran /\ In with_token ran)
    /\ passes_secret checkout_docs_with_token = true
    /\ passes_secret checkout_docs_without_token = false
    /\ (ev_name (r_event r) = "pull_request" ->
        forall outcome s,
          In s (executed
                  (fst (run_steps pn generate_documentation r outcome Success
                          (steps build)))) ->
          passes_secret s = false).
Proof.
  intros pn r Hn ran.
  assert (Hwo : In without_token ran <-> ev_name (r_event r) = "pull_request").
  { subst ran. simpl in Hn. destruct Hn as [Hn | [Hn | [Hn | []]]];
      symmetry in Hn; rewrite Hn.
    - split; [reflexivity |]. intros _. open_run r. subst n. vm_compute. tauto.
    - split; [| discriminate]. intros Hin.
      apply (ran_passed pn r _ _ in_build_without_token) in Hin.
      destruct Hin as [st Hst].
      rewrite (pull_request_gate pn r st checkout_docs_without_token eq_refl (or_intror Hn)) in Hst.
      discriminate.
    - split; [| discriminate]. intros Hin.
      apply (ran_passed pn r _ _ in_build_without_token) in Hin.
      destruct Hin as [st Hst].
      rewrite (pull_request_gate pn r st checkout_docs_without_token eq_refl (or_introl Hn)) in Hst.
      discriminate. }
  assert (Hw : In with_token ran <->
               ev_name (r_event r) = "release"
               \/ ev_name (r_event r) = "push").
  { subst ran. simpl in Hn. destruct Hn as [Hn | [Hn | [Hn | []]]];
      symmetry in Hn.
    - split; [| rewrite Hn; intros [H | H]; discriminate H]. intros Hin.
      apply (ran_passed pn r _ _ in_build_with_token) in Hin.
      destruct Hin as [st Hst].
      rewrite (release_or_push_gate pn r st checkout_docs_with_token eq_refl Hn) in Hst.
      discriminate.
    - split; [tauto |]. intros _. open_run r. subst n. vm_compute. tauto.
    - split; [tauto |]. intros _. open_run r. subst n. vm_compute. tauto. }
  split; [exact Hwo |]. split; [exact Hw |].
  split.
  { simpl in Hn. rewrite Hwo, Hw.
    destruct Hn as [Hn | [Hn | [Hn | []]]]; symmetry in Hn; tauto. }
  split.
  { rewrite Hwo, Hw. intros [H1 [H2 | H2]]; rewrite H1 in H2; discriminate. }
  split; [reflexivity |]. split; [reflexivity |].
  intros Hpr outcome s Hs.
  apply executed_guard in Hs. destruct Hs as [Hs [st Hst]].
  simpl in Hs.
  repeat (destruct Hs as [<- | Hs]; [try reflexivity |]); try contradiction.
  rewrite (release_or_push_gate pn r st checkout_docs_with_token eq_refl Hpr) in Hst. discriminate.
Qed.

Lemma docs_checkout_exclusive_witness :
  In (ev_name pull_request_opened) ["pull_request"; "push"; "release"]
  /\ (In without_token
          (executed_labels no_numbers generate_documentation
             (sample_run pull_request_opened "1") all_succeed build)
       <-> ev_name pull_request_opened = "pull_request").
Proof.
  split; [simpl; tauto |].
  exact (proj1 (docs_checkout_exclusive no_numbers
                  (sample_run pull_request_opened "1")
                  (or_introl eq_refl))).
Defined.

(* ------------------------------------------------------------------ *)
(** *** Concurrency group *)

Lemma group_of_pull_request :
  forall pn r,
    ev_name (r_event r) = "pull_request" ->
    ev_head_ref (r_event r) <> "" ->
    group_of pn generate_documentation r
    = Some ("Generate Documentation-" ++ ev_head_ref (r_event r))%string.
Proof.
  intros pn r Hn Hh. destruct r as [[n a rf h t] id sec mx].
  cbn [r_event ev_name ev_head_ref] in *. subst n.
  destruct h as [| c h]; [contradiction |]. reflexivity.
Qed.

Lemma group_of_push :
  forall pn r,
    ev_name (r_event r) = "push" ->
    group_of pn generate_documentation r
    = Some ("Generate Documentation-" ++ r_run_id r)%string.
Proof.
  intros pn r Hn. destruct r as [[n a rf h t] id sec mx].
  cbn [r_event ev_name r_run_id] in *. subst n. reflexivity.
Qed.

(** C3, as the claim words it, fails: two runs for pushes to the same ref
    get different concurrency groups, and the later one does not cancel
    the earlier one. *)
Lemma push_runs_not_grouped :
  let earlier := sample_run push_to_main "1" in
  let later := sample_run push_to_main "2" in
  ev_ref (r_event earlier) = ev_ref (r_event later)
  /\ group_of no_numbers generate_documentation earlier
     = Some "Generate Documentation-1"
  /\ group_of no_numbers generate_documentation later
     = Some "Generate Documentation-2"
  /\ group_of no_numbers generate_documentation earlier
     <> group_of no_numbers generate_documentation later
  /\ cancels no_numbers generate_documentation later earlier = false.
Proof.
  cbv zeta. split; [reflexivity |]. split; [reflexivity |].
  split; [reflexivity |]. split; [| reflexivity].
  intros H. vm_compute in H. discriminate H.
Qed.

(** C3, amended. Cancel-in-progress is enabled and the group is the
    workflow name followed by [github.head_ref || github.run_id].  Two
    pull-request runs from the same head branch share a group, so the
    queued one cancels the one in flight.  A push run has no head ref and
    its group ends in its run id: two push runs with different run ids,
    to the same ref or not, are in different groups and neither cancels
    the other. *)
Theorem concurrency_groups :
  forall pn queued in_flight,
    option_map cancel_in_progress (w_concurrency generate_documentation)
    = Some true
    /\ (ev_name (r_event queued) = "pull_request" ->
        ev_name (r_event in_flight) = "pull_request" ->
        ev_head_ref (r_event queued) <> "" ->
        ev_head_ref (r_event queued) = ev_head_ref (r_event in_flight) ->
        group_of pn generate_documentation queued
        = group_of pn generate_documentation in_flight
        /\ cancels pn generate_documentation queued in_flight = true)
    /\ (ev_name (r_event queued) = "push" ->
        ev_name (r_event in_flight) = "push" ->
        r_run_id queued <> r_run_id in_flight ->
        group_of pn generate_documentation queued
        <> group_of pn generate_documentation in_flight
        /\ cancels pn generate_documentation queued in_flight = false).
Proof.
  intros pn queued in_flight. split; [reflexivity |]. split.
  - intros Hq Hi Hne Heq. unfold cancels.
    rewrite (group_of_pull_request pn queued Hq Hne).
    rewrite (group_of_pull_request pn in_flight Hi);
      [| rewrite <- Heq; exact Hne].
    rewrite Heq. split; [reflexivity |].
    cbn [generate_documentation w_concurrency cancel_in_progress andb].
    apply String.eqb_refl.
  - intros Hq Hi Hne. unfold cancels.
    rewrite (group_of_push pn queued Hq), (group_of_push pn in_flight Hi).
    assert (Hg : ("Generate Documentation-" ++ r_run_id queued)%string
                 <> ("Generate Documentation-" ++ r_run_id in_flight)%string).
    { intros H. cbn [String.append] in H. injection H as H. auto. }
    split; [congruence |].
    cbn [generate_documentation w_concurrency cancel_in_progress andb].
    apply String.eqb_neq. exact Hg.
Qed.

Lemma concurrency_groups_witness :
  (ev_name pull_request_opened = "pull_request"
   /\ ev_head_ref pull_request_opened <> "")
  /\ (group_of no_numbers generate_documentation
         (sample_run pull_request_opened "2")
       = group_of no_numbers generate_documentation
           (sample_run pull_request_opened "1")
       /\ cancels no_numbers generate_documentation
            (sample_run pull_request_opened "2")
            (sample_run pull_request_opened "1") = true)
  /\ (ev_name push_to_main = "push" /\ "2" <> "1")
  /\ (group_of no_numbers generate_documentation (sample_run push_to_main "2")
       <> group_of no_numbers generate_documentation
            (sample_run push_to_main "1")
       /\ cancels no_numbers generate_documentation
            (sample_run push_to_main "2") (sample_run push_to_main "1")
          = false).
Proof.
  assert (Hd : ev_head_ref pull_request_opened <> "") by discriminate.
  assert (Hr : "2" <> "1") by discriminate.
  split; [split; [reflexivity | exact Hd] |].
  split.
  { exact (proj1 (proj2 (concurrency_groups no_numbers
                           (sample_run pull_request_opened "2")
                           (sample_run pull_request_opened "1")))
             eq_refl eq_refl Hd eq_refl). }
  split; [split; [reflexivity | exact Hr] |].
  exact (proj2 (proj2 (concurrency_groups no_numbers
                         (sample_run push_to_main "2")
                         (sample_run push_to_main "1")))
           eq_refl eq_refl Hr).
Defined.

(* ------------------------------------------------------------------ *)
(** *** Failure handling *)

Lemma build_no_status_call : Forall no_status_call (steps build).
Proof. repeat constructor. Qed.

Lemma build_no_continue_on_error :
  Forall (fun s => s_continue_on_error s = None) (steps build).
Proof. repeat constructor. Qed.

Section Failure.

Variable pn : string -> option Q.
Variable w : workflow.
Variable r : run.

Lemma runs_while_successful :
  forall st s, no_status_call s -> step_runs pn w r st s = true ->
               st = Success.
Proof.
  intros st s H. unfold step_runs, no_status_call in *.
  destruct (s_if s) as [e |]; [rewrite H |]; destruct st;
    simpl; intros; congruence.
Qed.

(** With no status check function and no [continue-on-error] in the job,
    the first failing step ends it: every later step is skipped and the
    job is failed. *)
Lemma failure_is_final :
  forall outcome ss,
    Forall no_status_call ss ->
    Forall (fun s => s_continue_on_error s = None) ss ->
    forall st before s after,
      fst (run_steps pn w r outcome st ss) = before ++ (s, Ran false) :: after ->
      Forall skipped after
      /\ snd (run_steps pn w r outcome st ss) = Failure.
Proof.
  intros outcome ss Hs Hc. induction ss as [| s0 ss IH];
    intros st before s after Hlog.
  - simpl in Hlog. destruct before; discriminate Hlog.
  - inversion Hs as [| ? ? Hs0 Hs']. inversion Hc as [| ? ? Hc0 Hc']. subst.
    simpl in Hlog |- *.
    destruct (step_runs pn w r st s0) eqn:G.
    + destruct (run_steps pn w r outcome (after_step st s0 (outcome s0)) ss)
        as [log st'] eqn:R.
      simpl in Hlog |- *.
      destruct before as [| b before]; simpl in Hlog.
      * injection Hlog as Hs1 Hok Hafter. subst s0 after.
        apply (runs_while_successful st s Hs0) in G. subst st.
        unfold after_step in R. rewrite Hok, Hc0 in R.
        rewrite (run_steps_failed pn w r outcome ss Hs') in R.
        injection R as <- <-. split; [| reflexivity].
        apply Forall_forall. intros p Hp. apply in_map_iff in Hp.
        destruct Hp as [x [<- _]]. reflexivity.
      * injection Hlog as _ Hlog.
        specialize (IH Hs' Hc' (after_step st s0 (outcome s0)) before s after).
        rewrite R in IH. simpl in IH. exact (IH Hlog).
    + destruct (run_steps pn w r outcome st ss) as [log st'] eqn:R.
      simpl in Hlog |- *.
      destruct before as [| b before]; simpl in Hlog.
      * discriminate Hlog.
      * injection Hlog as _ Hlog.
        specialize (IH Hs' Hc' st before s after).
        rewrite R in IH. simpl in IH. exact (IH Hlog).
Qed.

End Failure.

(** C7. No step of the job sets [continue-on-error], calls a status check
    function in its condition, uses an action other than the four setup
    and checkout actions, or carries a retry idiom in its script, and the
    strategy sets [fail-fast: false].  So in every run the first failing
    step is final: all later steps are skipped and the job ends failed. *)
Theorem no_custom_failure_handling :
  Forall (fun s => s_continue_on_error s = None
                   /\ no_status_call s
                   /\ script_recovers s = false) (steps build)
  /\ actions_used build
     = ["actions/checkout@v4"; "actions/checkout@v4"; "actions/checkout@v4";
        "r-lib/actions/setup-pandoc@v2"; "ts-graphviz/setup-graphviz@v2";
        "actions/setup-python@v5"]
  /\ fail_fast (j_strategy build) = Some false
  /\ (forall pn r outcome before s after,
        fst (run_steps pn generate_documentation r outcome Success
               (steps build))
        = before ++ (s, Ran false) :: after ->
        Forall skipped after
        /\ snd (run_steps pn generate_documentation r outcome Success
                  (steps build)) = Failure).
Proof.
  split; [repeat constructor |]. split; [reflexivity |].
  split; [reflexivity |].
  intros pn r outcome before s after.
  apply failure_is_final;
    [exact build_no_status_call | exact build_no_continue_on_error].
Qed.

Lemma no_custom_failure_handling_witness :
  fst (run_steps no_numbers generate_documentation
         (sample_run push_to_main "1") docs_build_fails Success
         (steps build))
  = log_before_failure ++ (build_documentation, Ran false) :: log_after_failure
  /\ Forall skipped log_after_failure
  /\ snd (run_steps no_numbers generate_documentation
            (sample_run push_to_main "1") docs_build_fails Success
            (steps build)) = Failure.
Proof.
  split; [reflexivity |].
  exact (proj2 (proj2 (proj2 no_custom_failure_handling))
           no_numbers (sample_run push_to_main "1") docs_build_fails
           log_before_failure build_documentation log_after_failure eq_refl).
Defined.

(* ------------------------------------------------------------------ *)
(** *** Shape of the job *)

(** C5, as the claim words it, fails on "no branching logic": three steps
    carry an [if:], and the steps that run on a push differ from those
    that run on a pull request. *)
Lemma job_branches_on_event :
  labels (filter conditional (steps build))
  = [without_token; with_token; "Push changes"]
  /\ executed_labels no_numbers generate_documentation
       (sample_run push_to_main "1") all_succeed build
     <> executed_labels no_numbers generate_documentation
          (sample_run pull_request_opened "1") all_succeed build.
Proof.
  split; [reflexivity |].
  intros H. vm_compute in H. discriminate H.
Qed.

(** C5, amended. The job is one list of steps, visited once each in file
    order in every run, with checkout, dependency installation, the
    Sphinx build ([make html]), the documentation commit and the
    documentation push in that order.  Its only branching is the [if:] of
    three steps (the two documentation checkouts and the push), each a
    test of [github.event_name] alone.  No step has a retry idiom,
    [continue-on-error] or a status check function. *)
Theorem build_pipeline :
  sublist stages (steps build)
  /\ s_uses checkout = Some "actions/checkout@v4"
  /\ runs_script "pip install -r requirements" install_dependencies = true
  /\ runs_script "make html" build_documentation = true
  /\ runs_script "docbuild-commit.sh" move_and_commit_documentation = true
  /\ runs_script "docbuild-push.sh" push_changes = true
  /\ (forall pn r outcome,
        map fst (fst (run_steps pn generate_documentation r outcome Success
                        (steps build)))
        = steps build)
  /\ labels (filter conditional (steps build))
     = [without_token; with_token; "Push changes"]
  /\ Forall (fun s => match s_if s with
                      | Some e =>
                          expr_refs e <> []
                          /\ Forall (eq ["github"; "event_name"])
                                    (expr_refs e)
                      | None => True
                      end)
            (steps build)
  /\ Forall (fun s => s_continue_on_error s = None
                      /\ no_status_call s
                      /\ script_recovers s = false) (steps build).
Proof.
  split.
  { unfold stages, build, steps.
    repeat first [apply sub_nil | apply sub_take | apply sub_skip]. }
  do 5 (split; [reflexivity |]).
  split; [intros; apply run_steps_log |].
  split; [reflexivity |].
  split; [| repeat constructor].
  repeat (constructor;
          [first [exact I | split; [discriminate | repeat constructor]] |]).
  constructor.
Qed.

(* ------------------------------------------------------------------ *)
(** *** Inputs from the environment *)

(** C6. The inputs the workflow takes from its environment are the
    [DOCBUILD_TOKEN] secret, handed as [token] to the documentation
    checkout with token and as [PERSONAL_ACCESS_TOKEN] to the push step,
    and [github.event.release.tag_name], handed as [GIT_TAG] to the commit
    step, which holds the release's tag on a release event and is empty on
    any other.  Everything else the file reads is run metadata of the
    [github] context or the job's own matrix. *)
Theorem workflow_inputs :
  environment_inputs build
  = [(with_token, InWith "token", ["secrets"; "DOCBUILD_TOKEN"]);
     ("Move and commit documentation", InEnv "GIT_TAG",
      ["github"; "event"; "release"; "tag_name"]);
     ("Push changes", InEnv "PERSONAL_ACCESS_TOKEN",
      ["secrets"; "DOCBUILD_TOKEN"])]
  /\ filter is_input (workflow_level_refs generate_documentation) = []
  /\ Forall (fun p => In p [["github"; "workflow"]; ["github"; "head_ref"];
                            ["github"; "run_id"]; ["github"; "event_name"];
                            ["matrix"; "python-version"]])
            (workflow_level_refs generate_documentation ++ other_refs build)
  /\ assoc "token" (s_with checkout_docs_with_token) = Some docbuild_token
  /\ assoc "PERSONAL_ACCESS_TOKEN" (s_env push_changes) = Some docbuild_token
  /\ assoc "GIT_TAG" (s_env move_and_commit_documentation) = Some git_tag
  /\ (forall pn r st,
        render_in pn generate_documentation r st docbuild_token
        = match assoc "DOCBUILD_TOKEN" (r_secrets r) with
          | Some v => v
          | None => ""
          end)
  /\ (forall pn r st,
        render_in pn generate_documentation r st git_tag
        = if String.eqb (ev_name (r_event r)) "release"
          then ev_release_tag (r_event r) else "").
Proof.
  split; [reflexivity |]. split; [reflexivity |].
  split; [repeat (constructor; [in_list |]); constructor |].
  do 3 (split; [reflexivity |]).
  split.
  - intros pn r st. unfold render_in, render, docbuild_token.
    cbn [map render_piece eval String.concat].
    unfold lookup. cbn [String.eqb Ascii.eqb Bool.eqb].
    destruct (assoc "DOCBUILD_TOKEN" (r_secrets r)); reflexivity.
  - intros pn r st. unfold render_in, render, git_tag.
    cbn [map render_piece eval String.concat].
    unfold lookup, github, payload.
    cbn [String.eqb Ascii.eqb Bool.eqb andb].
    destruct (String.eqb (ev_name (r_event r)) "release"); reflexivity.
Qed.


(* ================================================================== *)
(** * Further properties of the workflow *)

(* ------------------------------------------------------------------ *)
(** *** A failing step stops the job *)

Section FailStop.

Variable pn : string -> option Q.
Variable w : workflow.
Variable r : run.

Lemma executed_skipped :
  forall ss, executed (map (fun s : step => (s, Skipped)) ss) = [].
Proof.
  induction ss as [| s ss IH]; simpl; [reflexivity | exact IH].
Qed.

Lemma fail_stop_steps :
  forall outcome ss,
    Forall no_status_call ss ->
    Forall (fun s => s_continue_on_error s = None) ss ->
    executed (fst (run_steps pn w r outcome Success ss))
    = until_failure outcome
        (executed (fst (run_steps pn w r all_succeed Success ss))).
Proof.
  intros outcome ss Hs Hc. induction ss as [| s ss IH]; [reflexivity |].
  inversion Hs as [| ? ? Hs0 Hs']. inversion Hc as [| ? ? Hc0 Hc']. subst.
  specialize (IH Hs' Hc'). simpl.
  destruct (step_runs pn w r Success s).
  - destruct (run_steps pn w r all_succeed Success ss) as [la sa].
    destruct (outcome s) eqn:O.
    + cbn [after_step].
      destruct (run_steps pn w r outcome Success ss) as [lo so].
      cbn [fst snd executed flat_map app until_failure] in *.
      rewrite O. now rewrite IH.
    + unfold after_step. rewrite Hc0.
      rewrite (run_steps_failed pn w r outcome ss Hs').
      cbn [fst snd executed flat_map app until_failure].
      fold (executed (map (fun s0 : step => (s0, Skipped)) ss)).
      rewrite executed_skipped, O. reflexivity.
  - destruct (run_steps pn w r all_succeed Success ss) as [la sa].
    destruct (run_steps pn w r outcome Success ss) as [lo so].
    cbn [fst snd executed flat_map app] in *. exact IH.
Qed.

Lemma until_failure_subset :
  forall outcome ss s, In s (until_failure outcome ss) -> In s ss.
Proof.
  intros outcome ss s. induction ss as [| x ss IH]; simpl; [tauto |].
  destruct (outcome x); simpl; tauto.
Qed.

Lemma until_failure_later :
  forall outcome s rest x,
    In x (until_failure outcome (s :: rest)) -> x <> s ->
    outcome s = true /\ In x (until_failure outcome rest).
Proof.
  intros outcome s rest x Hin Hx. cbn [until_failure] in Hin.
  destruct (outcome s).
  - destruct Hin as [E | Hin]; [symmetry in E; contradiction | now split].
  - destruct Hin as [E | []]. symmetry in E. contradiction.
Qed.

(** Two runs on which every condition of the job agrees leave the same
    log. *)
Lemma run_steps_agree :
  forall (r' : run) outcome ss,
    (forall s st, In s ss ->
                  step_runs pn w r' st s = step_runs pn w r st s) ->
    forall st, run_steps pn w r' outcome st ss
               = run_steps pn w r outcome st ss.
Proof.
  intros r' outcome ss. induction ss as [| s ss IH]; intros H st; simpl.
  - reflexivity.
  - rewrite (H s st (or_introl eq_refl)).
    assert (H' : forall s0 st0, In s0 ss ->
                   step_runs pn w r' st0 s0 = step_runs pn w r st0 s0)
      by (intros; apply H; now right).
    destruct (step_runs pn w r st s); now rewrite (IH H').
Qed.

End FailStop.

(** X1. Whatever steps fail, the steps that run are those of the run in
    which nothing fails, cut after the first step that fails: the job
    never skips ahead and never resumes after a failure. *)
Theorem fail_stop :
  forall pn r outcome,
    executed_steps pn generate_documentation r outcome build
    = until_failure outcome
        (executed_steps pn generate_documentation r all_succeed build).
Proof.
  intros pn r outcome. unfold executed_steps.
  apply fail_stop_steps;
    [exact build_no_status_call | exact build_no_continue_on_error].
Qed.

Lemma pull_request_steps :
  forall pn r,
    ev_name (r_event r) = "pull_request" ->
    executed (fst (run_steps pn generate_documentation r all_succeed Success
                     (steps build)))
    = [checkout; checkout_docs_without_token; event_type;
       install_pandoc; install_graphviz; set_up_python;
       install_dependencies; install_statsmodels; build_documentation;
       move_and_commit_documentation].
Proof.
  intros pn r Hn. open_run r. subst n. reflexivity.
Qed.

Lemma release_or_push_steps :
  forall pn r,
    ev_name (r_event r) = "release" \/ ev_name (r_event r) = "push" ->
    executed (fst (run_steps pn generate_documentation r all_succeed Success
                     (steps build)))
    = [checkout; checkout_docs_with_token; event_type;
       install_pandoc; install_graphviz; set_up_python;
       install_dependencies; install_statsmodels; build_documentation;
       move_and_commit_documentation; push_changes].
Proof.
  intros pn r Hn. open_run r. destruct Hn; subst n; reflexivity.
Qed.

(** X2. The steps of a run in which nothing fails: on a pull request the
    ten steps up to the documentation commit, with the checkout that takes
    no token; on a release and on a push all eleven others, ending with
    the push. *)
Theorem steps_per_event :
  forall pn r,
    triggers generate_documentation (r_event r) = true ->
    executed_steps pn generate_documentation r all_succeed build
    = if String.eqb (ev_name (r_event r)) "pull_request"
      then [checkout; checkout_docs_without_token; event_type;
            install_pandoc; install_graphviz; set_up_python;
            install_dependencies; install_statsmodels; build_documentation;
            move_and_commit_documentation]
      else [checkout; checkout_docs_with_token; event_type;
            install_pandoc; install_graphviz; set_up_python;
            install_dependencies; install_statsmodels; build_documentation;
            move_and_commit_documentation; push_changes].
Proof.
  intros pn r Ht. unfold executed_steps.
  destruct (trigger_names _ Ht) as [Hn | [Hn | Hn]].
  - rewrite (release_or_push_steps pn r (or_introl Hn)), Hn. reflexivity.
  - rewrite (release_or_push_steps pn r (or_intror Hn)), Hn. reflexivity.
  - rewrite (pull_request_steps pn r Hn), Hn. reflexivity.
Qed.

Lemma steps_per_event_witness :
  triggers generate_documentation release_published = true
  /\ executed_steps no_numbers generate_documentation
       (sample_run release_published "3") all_succeed build
     = [checkout; checkout_docs_with_token; event_type;
        install_pandoc; install_graphviz; set_up_python;
        install_dependencies; install_statsmodels; build_documentation;
        move_and_commit_documentation; push_changes].
Proof.
  split; [reflexivity |].
  exact (steps_per_event no_numbers (sample_run release_published "3")
           eq_refl).
Defined.

Ltac not_this_step H :=
  apply (f_equal step_label) in H; vm_compute in H; discriminate H.

(** From [Push changes] having run, the success of all steps before it. *)
Ltac push_ran Hin outcome :=
  repeat (apply until_failure_later in Hin;
          [destruct Hin as [? Hin] | intros E; not_this_step E]);
  clear Hin; cbn [until_failure];
  repeat match goal with
         | H : outcome ?s = true |- context [outcome ?s] => rewrite H
         end;
  repeat (constructor; [split; [assumption | in_list] |]);
  constructor.

(** X3. The documentation is pushed only after every other step that the
    run takes has succeeded: if [Push changes] runs, then the checkouts,
    the installations, the Sphinx build and the commit all ran before it
    and none of them failed. *)
Theorem push_after_success :
  forall pn r outcome,
    triggers generate_documentation (r_event r) = true ->
    In push_changes
       (executed_steps pn generate_documentation r outcome build) ->
    Forall (fun s => outcome s = true
                     /\ In s (executed_steps pn generate_documentation r
                                outcome build))
           [checkout; checkout_docs_with_token; event_type; install_pandoc;
            install_graphviz; set_up_python; install_dependencies;
            install_statsmodels; build_documentation;
            move_and_commit_documentation].
Proof.
  intros pn r outcome Ht. unfold executed_steps.
  rewrite (fail_stop_steps pn generate_documentation r outcome (steps build)
             build_no_status_call build_no_continue_on_error).
  destruct (trigger_names _ Ht) as [Hn | [Hn | Hn]].
  - rewrite (release_or_push_steps pn r (or_introl Hn)).
    intros Hin. push_ran Hin outcome.
  - rewrite (release_or_push_steps pn r (or_intror Hn)).
    intros Hin. push_ran Hin outcome.
  - rewrite (pull_request_steps pn r Hn).
    intros Hin. apply until_failure_subset in Hin. exfalso. simpl in Hin.
    repeat (destruct Hin as [Hin | Hin]; [not_this_step Hin |]).
    exact Hin.
Qed.

Lemma push_after_success_witness :
  (triggers generate_documentation push_to_main = true
   /\ In push_changes
         (executed_steps no_numbers generate_documentation
            (sample_run push_to_main "1") all_succeed build))
  /\ all_succeed build_documentation = true.
Proof.
  assert (Hin : In push_changes
                   (executed_steps no_numbers generate_documentation
                      (sample_run push_to_main "1") all_succeed build))
    by (vm_compute; tauto).
  split; [split; [reflexivity | exact Hin] |].
  pose proof (push_after_success no_numbers (sample_run push_to_main "1")
                all_succeed eq_refl Hin) as H.
  rewrite Forall_forall in H.
  exact (proj1 (H build_documentation ltac:(in_list))).
Defined.

(* ------------------------------------------------------------------ *)
(** *** Secrets stay out of pull-request runs *)

Lemma conditions_ignore_secrets :
  forall pn r secrets s st,
    In s (steps build) ->
    step_runs pn generate_documentation (with_secrets r secrets) st s
    = step_runs pn generate_documentation r st s.
Proof.
  intros pn r secrets s st Hs. simpl in Hs.
  repeat (destruct Hs as [<- | Hs]; [reflexivity |]). contradiction.
Qed.

(** X4. A pull-request run does not depend on the secret store: whatever
    the secrets hold and whichever steps fail, the same steps run and each
    receives the same name, the same [with:] arguments and the same
    environment; the concurrency group is the same too. *)
Theorem pull_request_ignores_secrets :
  forall pn r secrets outcome,
    ev_name (r_event r) = "pull_request" ->
    executed_steps pn generate_documentation (with_secrets r secrets)
      outcome build
    = executed_steps pn generate_documentation r outcome build
    /\ run_inputs pn generate_documentation (with_secrets r secrets)
         outcome build
       = run_inputs pn generate_documentation r outcome build
    /\ group_of pn generate_documentation (with_secrets r secrets)
       = group_of pn generate_documentation r.
Proof.
  intros pn r secrets outcome Hn.
  assert (Hlog : run_steps pn generate_documentation (with_secrets r secrets)
                   outcome Success (steps build)
                 = run_steps pn generate_documentation r outcome Success
                     (steps build)).
  { apply run_steps_agree. intros s st Hs.
    now apply conditions_ignore_secrets. }
  split; [unfold executed_steps; now rewrite Hlog |].
  split; [| reflexivity].
  unfold run_inputs. rewrite Hlog. apply map_ext_in. intros s Hs.
  apply executed_guard in Hs. destruct Hs as [Hs [st Hst]].
  simpl in Hs.
  repeat (destruct Hs as [<- | Hs]; [try reflexivity |]); try contradiction.
  - rewrite (release_or_push_gate pn r st checkout_docs_with_token
               eq_refl Hn) in Hst. discriminate Hst.
  - rewrite (release_or_push_gate pn r st push_changes eq_refl Hn) in Hst.
    discriminate Hst.
Qed.

Lemma pull_request_ignores_secrets_witness :
  ev_name pull_request_opened = "pull_request"
  /\ run_inputs no_numbers generate_documentation
       (with_secrets (sample_run pull_request_opened "1") []) all_succeed
       build
     = run_inputs no_numbers generate_documentation
         (sample_run pull_request_opened "1") all_succeed build.
Proof.
  split; [reflexivity |].
  exact (proj1 (proj2 (pull_request_ignores_secrets no_numbers
                         (sample_run pull_request_opened "1") []
                         all_succeed eq_refl))).
Defined.

(** On a push, by contrast, the secret reaches the checkout and the push
    step. *)
Example push_run_reads_secret :
  map (fun i => (fst (fst i), snd (fst i) ++ snd i))
      (filter (fun i => existsb (fun kv => String.eqb (snd kv) "s3cr3t")
                                (snd (fst i) ++ snd i))
              (run_inputs no_numbers generate_documentation
                 (sample_run push_to_main "1") all_succeed build))
  = [(with_token,
      [("fetch-depth", "1");
       ("repository", "statsmodels/statsmodels.github.io");
       ("path", "statsmodels.github.io"); ("token", "s3cr3t")]);
     ("Push changes", [("PERSONAL_ACCESS_TOKEN", "s3cr3t")])].
Proof. reflexivity. Qed.

(* ------------------------------------------------------------------ *)
(** *** Which runs cancel which *)





(** A pull request from a branch named [77] against the push run [77]. *)
Example branch_named_as_run_id :
  cancels no_numbers generate_documentation
    (sample_run {| ev_name := "pull_request"; ev_action := "opened";
                   ev_ref := "refs/pull/9/merge"; ev_head_ref := "77";
                   ev_release_tag := "" |} "78")
    (sample_run push_to_main "77") = true.
Proof. reflexivity. Qed.

(* ================================================================== *)
(** * Properties of [simulate_seasonal_term] *)

Import Seasonal.

Open Scope Z_scope.

Lemma set_at_length :
  forall (A : Type) (i : nat) (v : A) (a : list A),
    length (set_at i v a) = length a.
Proof.
  intros A i v a. revert i.
  induction a as [| x a IH]; intros [| i]; simpl; auto.
Qed.

Lemma slice_from_length :
  forall (A : Type) (d : Z) (a : list A),
    0 <= d -> Z.of_nat (length a) = 100 * d ->
    Z.of_nat (length (slice_from (- d) a)) = d.
Proof.
  intros A d a Hd Hlen. unfold slice_from. rewrite length_skipn.
  destruct (- d <? 0) eqn:E.
  - apply Z.ltb_lt in E. lia.
  - apply Z.ltb_ge in E. lia.
Qed.

Lemma slice_from_skipn :
  forall (A : Type) (d : Z) (a : list A),
    0 <= d -> Z.of_nat (length a) = 100 * d ->
    slice_from (- d) a
    = skipn (length a - length (slice_from (- d) a)) a.
Proof.
  intros A d a Hd Hlen.
  pose proof (slice_from_length A d a Hd Hlen) as L.
  unfold slice_from in *. f_equal.
  destruct (- d <? 0) eqn:E.
  - apply Z.ltb_lt in E. lia.
  - apply Z.ltb_ge in E. lia.
Qed.

Lemma py_int_whole :
  forall x : Q, Qeq_bool x (inject_Z (py_int x)) = true <-> whole x.
Proof.
  intros x. rewrite Qeq_bool_iff. split.
  - intros H. now exists (py_int x).
  - intros [z Hz]. rewrite Hz at 1. unfold py_int.
    unfold Qeq in Hz. simpl in Hz. rewrite Z.mul_1_r in Hz. rewrite Hz.
    rewrite Z.quot_mul by discriminate. reflexivity.
Qed.

Lemma py_int_nonneg :
  forall x : Q, Qle (inject_Z 0) x -> 0 <= py_int x.
Proof.
  intros x H. unfold py_int. unfold Qle in H. simpl in H.
  apply Z.quot_pos; lia.
Qed.

Section SimulateFacts.

Context {F : Type} {rt : Runtime F}.

Lemma time_step_length :
  forall noise_std lambda_p harmonics st t,
    length (series_of (time_step noise_std lambda_p harmonics st t))
    = length (series_of st).
Proof.
  intros noise_std lambda_p harmonics [[[series gj] gs] g] t.
  unfold time_step.
  destruct (fold_left (harmonic_step noise_std lambda_p gj gs)
              (seq 1 (Z.to_nat harmonics))
              (zeros_like gj, zeros_like gs, g)) as [[a b] g'].
  simpl. apply set_at_length.
Qed.

Lemma time_loop_length :
  forall noise_std lambda_p harmonics ts st,
    length (series_of
              (fold_left (time_step noise_std lambda_p harmonics) ts st))
    = length (series_of st).
Proof.
  intros noise_std lambda_p harmonics ts.
  induction ts as [| t ts IH]; intros st; simpl.
  - reflexivity.
  - rewrite IH. apply time_step_length.
Qed.

(** Unfolds the padded run up to its loop; [n] names the number of
    harmonics in use. *)
Ltac enter_padded p c h n :=
  unfold simulate_padded, assertion_passes in *;
  set (n := truthy_or h (Qfloor (Qdiv p (inject_Z 2)))) in *.

(** What a padded run that returns tells about the call. *)
Lemma simulate_padded_ok :
  forall periodicity total_cycles noise_std harmonics g padded g',
    simulate_padded periodicity total_cycles noise_std harmonics g
    = Ok (padded, g') ->
    assertion_passes periodicity total_cycles = true
    /\ 0 <= py_int (times periodicity total_cycles)
    /\ Z.of_nat (length padded)
       = 100 * py_int (times periodicity total_cycles).
Proof.
  intros p c noise h g padded g'. enter_padded p c h n.
  destruct (Qeq_bool (times p c) (inject_Z (py_int (times p c))));
    [| discriminate].
  cbn [py_assert bind].
  destruct (Qeq_bool p (inject_Z 0)); [discriminate |]. cbn [bind].
  unfold np_random_randn.
  destruct (n <? 0); [discriminate |]. cbn [bind].
  destruct (randn_n (Z.to_nat n) g) as [e1 g1]. cbn [bind].
  destruct (randn_n (Z.to_nat n) g1) as [e2 g2].
  unfold np_zeros.
  destruct (100 * py_int (times p c) <? 0) eqn:E; [discriminate |].
  apply Z.ltb_ge in E. cbn [bind].
  pose proof (time_loop_length noise (two_pi_over p) n
                (seq 0 (Z.to_nat (100 * py_int (times p c))))
                (repeat fzero (Z.to_nat (100 * py_int (times p c))),
                 map (fmul noise) e1, map (fmul noise) e2, g2)) as L.
  destruct (fold_left (time_step noise (two_pi_over p) n)
              (seq 0 (Z.to_nat (100 * py_int (times p c))))
              (repeat fzero (Z.to_nat (100 * py_int (times p c))),
               map (fmul noise) e1, map (fmul noise) e2, g2))
    as [[[series gj] gs] g3].
  cbn [series_of] in L. rewrite repeat_length in L.
  intros [= <- <-]. split; [reflexivity |]. split; lia.
Qed.

(** The padded run returns on every call that passes the assertion with
    a non-zero period, a non-negative duration and a non-negative number
    of harmonics. *)
Lemma simulate_padded_returns :
  forall periodicity total_cycles noise_std harmonics g,
    assertion_passes periodicity total_cycles = true ->
    ~ Qeq periodicity (inject_Z 0) ->
    Qle (inject_Z 0) (times periodicity total_cycles) ->
    0 <= truthy_or harmonics (Qfloor (Qdiv periodicity (inject_Z 2))) ->
    exists padded g',
      simulate_padded periodicity total_cycles noise_std harmonics g
      = Ok (padded, g').
Proof.
  intros p c noise h g Ha Hp Hd Hh. enter_padded p c h n.
  rewrite Ha. cbn [py_assert bind].
  destruct (Qeq_bool p (inject_Z 0)) eqn:E;
    [apply Qeq_bool_iff in E; contradiction |]. cbn [bind].
  unfold np_random_randn.
  destruct (n <? 0) eqn:En; [apply Z.ltb_lt in En; lia |]. cbn [bind].
  destruct (randn_n (Z.to_nat n) g) as [e1 g1]. cbn [bind].
  destruct (randn_n (Z.to_nat n) g1) as [e2 g2].
  unfold np_zeros. apply py_int_nonneg in Hd.
  destruct (100 * py_int (times p c) <? 0) eqn:Ez;
    [apply Z.ltb_lt in Ez; lia |]. cbn [bind].
  destruct (fold_left (time_step noise (two_pi_over p) n)
              (seq 0 (Z.to_nat (100 * py_int (times p c))))
              (repeat fzero (Z.to_nat (100 * py_int (times p c))),
               map (fmul noise) e1, map (fmul noise) e2, g2))
    as [[[series gj] gs] g3].
  now exists series, g3.
Qed.

(** Only the assertion raises [AssertionError]. *)
Lemma simulate_padded_assertion :
  forall periodicity total_cycles noise_std harmonics g,
    simulate_padded periodicity total_cycles noise_std harmonics g
    = Raise AssertionError
    <-> assertion_passes periodicity total_cycles = false.
Proof.
  intros p c noise h g. enter_padded p c h n.
  destruct (Qeq_bool (times p c) (inject_Z (py_int (times p c))));
    cbn [py_assert bind]; [| tauto].
  split; [| discriminate].
  destruct (Qeq_bool p (inject_Z 0)); [discriminate |]. cbn [bind].
  unfold np_random_randn.
  destruct (n <? 0); [discriminate |]. cbn [bind].
  destruct (randn_n (Z.to_nat n) g) as [e1 g1]. cbn [bind].
  destruct (randn_n (Z.to_nat n) g1) as [e2 g2].
  unfold np_zeros.
  destruct (100 * py_int (times p c) <? 0); [discriminate |]. cbn [bind].
  destruct (fold_left (time_step noise (two_pi_over p) n)
              (seq 0 (Z.to_nat (100 * py_int (times p c))))
              (repeat fzero (Z.to_nat (100 * py_int (times p c))),
               map (fmul noise) e1, map (fmul noise) e2, g2))
    as [[[series gj] gs] g3].
  discriminate.
Qed.

(** C9. On every call the assertion passes exactly when
    [periodicity * total_cycles] is a whole number, and a call that
    raises [AssertionError] has a product that is not whole.  Whenever
    the call returns a series, the assertion has passed, the series has
    exactly [periodicity * total_cycles] samples, and they are the last
    ones of the padded run of [100 * duration] samples.

    For operands whose product Python forms as a finite number, a product
    that is not whole does raise [AssertionError], and the call returns
    when the product is whole, the period is not zero, neither the
    duration nor the number of harmonics is negative and both arrays are
    of a length within [array_limit]. *)
Theorem simulate_seasonal_term_length :
  forall periodicity total_cycles noise_std harmonics g,
    let duration := times periodicity total_cycles in
    let call :=
      simulate_seasonal_term periodicity total_cycles noise_std harmonics g in
    (assertion_passes periodicity total_cycles = true <-> whole duration)
    /\ (call = Raise AssertionError -> ~ whole duration)
    /\ (forall series g',
          call = Ok (series, g') ->
          whole duration
          /\ Qeq (inject_Z (Z.of_nat (length series))) duration
          /\ exists padded,
               simulate_padded periodicity total_cycles noise_std harmonics g
               = Ok (padded, g')
               /\ Z.of_nat (length padded) = 100 * py_int duration
               /\ series = skipn (length padded - length series) padded)
    /\ (finite_product periodicity total_cycles ->
        (~ whole duration -> call = Raise AssertionError)
        /\ (whole duration ->
            ~ Qeq periodicity (inject_Z 0) ->
            Qle (inject_Z 0) duration ->
            0 <= harmonics_in_use periodicity harmonics <= array_limit ->
            100 * py_int duration <= array_limit ->
            exists series g', call = Ok (series, g'))).
Proof.
  intros p c noise h g duration call.
  assert (Hw : assertion_passes p c = true <-> whole duration)
    by apply py_int_whole.
  assert (Hr : call = Raise AssertionError
               <-> assertion_passes p c = false).
  { subst call. unfold simulate_seasonal_term.
    pose proof (simulate_padded_assertion p c noise h g) as Ha.
    destruct (simulate_padded p c noise h g) as [[padded g1] | e];
      cbn [bind].
    - split; [discriminate |]. intros E. apply Ha in E. discriminate E.
    - exact Ha. }
  split; [exact Hw |]. split; [| split].
  - intros E W. apply Hr in E. apply Hw in W. congruence.
  - intros series g'. subst call. unfold simulate_seasonal_term.
    destruct (simulate_padded p c noise h g) as [[padded g1] | e] eqn:P;
      cbn [bind]; [| discriminate].
    apply simulate_padded_ok in P. destruct P as [Ha [Hd Hlen]].
    intros [= <- <-]. split; [now apply Hw |].
    fold duration in Hd, Hlen |- *. split.
    + rewrite (slice_from_length F _ padded Hd Hlen).
      apply Qeq_sym. apply Qeq_bool_iff. exact Ha.
    + exists padded. split; [reflexivity |]. split; [exact Hlen |].
      apply slice_from_skipn; assumption.
  - intros _. split.
    + intros Hn. apply Hr. apply not_true_is_false.
      intros E. apply Hn, Hw, E.
    + intros Hwhole Hp Hd [Hh _] _. apply Hw in Hwhole.
      destruct (simulate_padded_returns p c noise h g Hwhole Hp Hd Hh)
        as [padded [g' P]].
      subst call. unfold simulate_seasonal_term. rewrite P. cbn [bind].
      now eexists _, _.
Qed.

End SimulateFacts.

(** *** Runs on the stand-in runtime *)

Example toy_two_by_one :
  toy (inject_Z 2) (inject_Z 1) None = Ok ([39800; 40200], 402%nat).
Proof. vm_compute. reflexivity. Qed.

Example toy_fractional_cycles :
  toy (inject_Z 2) (Qmake 3 2) (Some 2)
  = Ok ([357005; 359399; 361801], 1204%nat).
Proof. vm_compute. reflexivity. Qed.

Example toy_not_whole :
  toy (inject_Z 2) (Qmake 1 3) None = Raise AssertionError.
Proof. vm_compute. reflexivity. Qed.

Example toy_no_cycles :
  toy (inject_Z 3) (inject_Z 0) (Some 1) = Ok ([], 2%nat).
Proof. vm_compute. reflexivity. Qed.

Example toy_negative_cycles :
  toy (inject_Z 2) (inject_Z (-1)) None = Raise ValueError.
Proof. vm_compute. reflexivity. Qed.

Example toy_zero_period :
  toy (inject_Z 0) (inject_Z 5) None = Raise ZeroDivisionError.
Proof. vm_compute. reflexivity. Qed.

Lemma simulate_seasonal_term_length_witness :
  (finite_product (inject_Z 2) (Qmake 3 2)
   /\ whole (Qmult (inject_Z 2) (Qmake 3 2))
   /\ ~ Qeq (inject_Z 2) (inject_Z 0)
   /\ Qle (inject_Z 0) (Qmult (inject_Z 2) (Qmake 3 2))
   /\ 0 <= harmonics_in_use (inject_Z 2) (Some 2) <= array_limit
   /\ 100 * py_int (Qmult (inject_Z 2) (Qmake 3 2)) <= array_limit)
  /\ exists series g', toy (inject_Z 2) (Qmake 3 2) (Some 2) = Ok (series, g').
Proof.
  assert (H0 : finite_product (inject_Z 2) (Qmake 3 2))
    by (repeat split; reflexivity).
  assert (H1 : whole (Qmult (inject_Z 2) (Qmake 3 2)))
    by (exists 3; reflexivity).
  assert (H2 : ~ Qeq (inject_Z 2) (inject_Z 0)) by discriminate.
  assert (H3 : Qle (inject_Z 0) (Qmult (inject_Z 2) (Qmake 3 2)))
    by discriminate.
  assert (H4 : 0 <= harmonics_in_use (inject_Z 2) (Some 2) <= array_limit)
    by (split; discriminate).
  assert (H5 : 100 * py_int (Qmult (inject_Z 2) (Qmake 3 2)) <= array_limit)
    by discriminate.
  split; [repeat split; solve [assumption | apply H0 | apply H4] |].
  exact (proj2 (proj2 (proj2 (proj2
           (simulate_seasonal_term_length (rt := toy_runtime)
              (inject_Z 2) (Qmake 3 2) 1 (Some 2) O))) H0)
           H1 H2 H3 H4 H5).
Defined.

(* ================================================================== *)
(** * Further properties of [simulate_seasonal_term] *)

(* ------------------------------------------------------------------ *)
(** *** Arrays written in place *)

Lemma set_at_split :
  forall (A : Type) (k : nat) (v : A) (a : list A),
    (k < length a)%nat ->
    set_at k v a = firstn k a ++ v :: skipn (S k) a.
Proof.
  intros A k v a. revert k.
  induction a as [| x a IH]; intros k Hk; simpl in Hk; [lia |].
  destruct k as [| k]; [reflexivity |].
  cbn [set_at firstn skipn app]. f_equal. apply IH. lia.
Qed.

Lemma firstn_set_at :
  forall (A : Type) (k : nat) (v : A) (a : list A),
    (k < length a)%nat ->
    firstn (S k) (set_at k v a) = firstn k a ++ [v].
Proof.
  intros A k v a. revert k.
  induction a as [| x a IH]; intros k Hk; simpl in Hk; [lia |].
  destruct k as [| k]; [reflexivity |].
  cbn [set_at]. change (firstn (S (S k)) (x :: set_at k v a))
    with (x :: firstn (S k) (set_at k v a)).
  rewrite IH by lia. reflexivity.
Qed.

Lemma skipn_set_at :
  forall (A : Type) (k n : nat) (v : A) (a : list A),
    (k < n)%nat -> skipn n (set_at k v a) = skipn n a.
Proof.
  intros A k n v a. revert k n.
  induction a as [| x a IH]; intros k n Hk.
  - destruct k; reflexivity.
  - destruct n as [| n]; [lia |]. destruct k as [| k]; [reflexivity |].
    cbn [set_at skipn]. apply IH. lia.
Qed.

Lemma all_equal_repeat :
  forall (A : Type) (x : A) (l : list A),
    Forall (eq x) l -> l = repeat x (length l).
Proof.
  intros A x l H. induction H as [| y l Hy _ IH]; [reflexivity |].
  simpl. now rewrite <- Hy, <- IH.
Qed.

Lemma Forall_skipn_keeps :
  forall (A : Type) (P : A -> Prop) (n : nat) (l : list A),
    Forall P l -> Forall P (skipn n l).
Proof.
  intros A P n l. revert n.
  induction l as [| x l IH]; intros n H; destruct n; simpl; auto.
  inversion H; auto.
Qed.

Lemma last_after_head :
  forall (A : Type) (l : list A) (x d : A), last (x :: l) d = last l x.
Proof.
  intros A l. induction l as [| y l IH]; intros x d; [reflexivity |].
  change (last (x :: y :: l) d) with (last (y :: l) d).
  rewrite (IH y d), (IH y x). reflexivity.
Qed.

Section TrajectoryFacts.

Context {F : Type} {rt : Runtime F}.

Lemma time_step_advance :
  forall noise lambda h series gj gs g t,
    time_step noise lambda h (series, gj, gs, g) t
    = (set_at t (np_sum (gamma_of (advance noise lambda h (gj, gs, g))))
              series,
       gamma_of (advance noise lambda h (gj, gs, g)),
       snd (fst (advance noise lambda h (gj, gs, g))),
       generator_of (advance noise lambda h (gj, gs, g))).
Proof.
  intros. unfold time_step, advance, gamma_of, generator_of.
  destruct (fold_left (harmonic_step noise lambda gj gs)
              (seq 1 (Z.to_nat h)) (zeros_like gj, zeros_like gs, g))
    as [[a b] g'].
  reflexivity.
Qed.

(** The loop writes slot [t] at step [t] and nothing else: after the
    steps [k, ..., k + m - 1] the series holds what it held before below
    [k] and from [k + m] on, and the sums of the successive states in
    between. *)
Lemma time_loop_writes :
  forall noise lambda h m k series gj gs g,
    (k + m <= length series)%nat ->
    let states := trajectory noise lambda h m (gj, gs, g) in
    let final := last states (gj, gs, g) in
    fold_left (time_step noise lambda h) (seq k m) (series, gj, gs, g)
    = (firstn k series ++ map (fun st => np_sum (gamma_of st)) states
         ++ skipn (k + m) series,
       gamma_of final, snd (fst final), generator_of final).
Proof.
  intros noise lambda h m. induction m as [| m IH];
    intros k series gj gs g Hlen; cbv zeta.
  - cbn [seq fold_left trajectory map last app gamma_of generator_of fst snd].
    rewrite Nat.add_0_r, firstn_skipn. reflexivity.
  - cbn [seq fold_left]. rewrite time_step_advance.
    remember (advance noise lambda h (gj, gs, g)) as st' eqn:Est.
    destruct st' as [[gj' gs'] g'].
    cbn [gamma_of generator_of fst snd].
    rewrite IH by (rewrite set_at_length; lia). cbv zeta.
    rewrite firstn_set_at by lia.
    rewrite skipn_set_at by lia.
    cbn [trajectory]. rewrite <- Est.
    cbn [map gamma_of fst].
    rewrite <- app_assoc. cbn [app].
    replace (S k + m)%nat with (k + S m)%nat by lia.
    rewrite last_after_head. reflexivity.
Qed.

End TrajectoryFacts.

Section SimulateCases.

Context {F : Type} {rt : Runtime F}.

Lemma trajectory_length :
  forall noise lambda h n st,
    length (trajectory noise lambda h n st) = n.
Proof.
  intros noise lambda h n. induction n as [| n IH]; intros st; simpl;
    [reflexivity | now rewrite IH].
Qed.

(** The padded run, case by case. *)
Lemma simulate_padded_cases :
  forall periodicity total_cycles noise_std harmonics g,
    let d := py_int (times periodicity total_cycles) in
    let h := harmonics_in_use periodicity harmonics in
    let init := initial_state noise_std h g in
    let states :=
      trajectory noise_std (two_pi_over periodicity) h (Z.to_nat (100 * d))
        init in
    simulate_padded periodicity total_cycles noise_std harmonics g
    = if assertion_passes periodicity total_cycles then
        if Qeq_bool periodicity (inject_Z 0) then Raise ZeroDivisionError
        else if h <? 0 then Raise ValueError
        else if d <? 0 then Raise ValueError
        else Ok (map (fun st => np_sum (gamma_of st)) states,
                 generator_of (last states init))
      else Raise AssertionError.
Proof.
  intros p c noise harm g d h init states.
  unfold simulate_padded. fold (assertion_passes p c).
  fold (harmonics_in_use p harm). fold h. fold d.
  destruct (assertion_passes p c); cbn [py_assert bind]; [| reflexivity].
  destruct (Qeq_bool p (inject_Z 0)); cbn [bind]; [reflexivity |].
  unfold np_random_randn.
  destruct (h <? 0) eqn:Eh; cbn [bind]; [reflexivity |].
  subst states init. unfold initial_state.
  destruct (randn_n (Z.to_nat h) g) as [e1 g1]. cbn [bind].
  destruct (randn_n (Z.to_nat h) g1) as [e2 g2].
  unfold np_zeros.
  replace (100 * d <? 0) with (d <? 0)
    by (destruct (d <? 0) eqn:Ed; symmetry;
        [apply Z.ltb_lt in Ed; apply Z.ltb_lt
        | apply Z.ltb_ge in Ed; apply Z.ltb_ge]; lia).
  destruct (d <? 0) eqn:Ed; cbn [bind]; [reflexivity |].
  rewrite time_loop_writes by (rewrite repeat_length; lia). cbv zeta.
  cbn [firstn app]. rewrite Nat.add_0_l.
  rewrite skipn_all2 by (rewrite repeat_length; lia).
  rewrite app_nil_r. reflexivity.
Qed.



End SimulateCases.


Section SimulateStates.

Context {F : Type} {rt : Runtime F}.

Lemma to_nat_hundredfold :
  forall d : Z, 0 <= d -> Z.to_nat (100 * d) = (100 * Z.to_nat d)%nat.
Proof. intros d Hd. lia. Qed.

(** A call that returns, read off the case lemma. *)
Lemma simulate_returns_states :
  forall periodicity total_cycles noise_std harmonics g series g',
    simulate_seasonal_term periodicity total_cycles noise_std harmonics g
    = Ok (series, g') ->
    let d := py_int (times periodicity total_cycles) in
    let h := harmonics_in_use periodicity harmonics in
    let init := initial_state noise_std h g in
    let states :=
      trajectory noise_std (two_pi_over periodicity) h
        (100 * Z.to_nat d) init in
    0 <= d /\ 0 <= h
    /\ series
       = slice_from (- d) (map (fun st => np_sum (gamma_of st)) states)
    /\ g' = generator_of (last states init).
Proof.
  intros p c noise harm g series g'. unfold simulate_seasonal_term.
  rewrite simulate_padded_cases. cbv zeta.
  destruct (assertion_passes p c); [| discriminate].
  destruct (Qeq_bool p (inject_Z 0)); [discriminate |].
  destruct (harmonics_in_use p harm <? 0) eqn:Eh; [discriminate |].
  destruct (py_int (times p c) <? 0) eqn:Ed; [discriminate |].
  apply Z.ltb_ge in Eh, Ed. cbn [bind].
  rewrite (to_nat_hundredfold _ Ed).
  intros [= <- <-]. repeat split; assumption.
Qed.

(** X7. The samples a call returns are the sums [np.sum(gamma_jtp1)] of
    the last [duration] states of a run of [100 * duration] time steps
    from the two vectors of initial draws; the [99 * duration] states
    before them are the burn-in.  Every sample comes from a state: none
    is left at the zero the array was created with. *)
Theorem series_from_states :
  forall periodicity total_cycles noise_std harmonics g series g',
    simulate_seasonal_term periodicity total_cycles noise_std harmonics g
    = Ok (series, g') ->
    let d := Z.to_nat (py_int (times periodicity total_cycles)) in
    let h := harmonics_in_use periodicity harmonics in
    let init := initial_state noise_std h g in
    let states :=
      trajectory noise_std (two_pi_over periodicity) h (100 * d) init in
    series = map (fun st => np_sum (gamma_of st)) (skipn (99 * d) states)
    /\ g' = generator_of (last states init).
Proof.
  intros p c noise harm g series g' Hcall d h init states.
  destruct (simulate_returns_states p c noise harm g series g' Hcall)
    as [Hd [Hh [Hs Hg]]].
  fold d h init states in Hs, Hg. split; [| exact Hg].
  rewrite Hs.
  assert (Hlen : Z.of_nat (length (map (fun st => np_sum (gamma_of st))
                                       states))
                 = 100 * py_int (times p c)).
  { rewrite length_map. subst states. rewrite trajectory_length.
    subst d. lia. }
  rewrite (slice_from_skipn F _ _ Hd Hlen).
  rewrite (Nat2Z.inj (length (slice_from _ _)) d)
    by (rewrite (slice_from_length F _ _ Hd Hlen); subst d; lia).
  rewrite length_map. subst states. rewrite trajectory_length.
  rewrite skipn_map. do 2 f_equal. lia.
Qed.

End SimulateStates.

Lemma series_from_states_witness :
  simulate_seasonal_term (rt := toy_runtime) (inject_Z 2) (inject_Z 1) 1
    None O
  = Ok ([39800; 40200], 402%nat)
  /\ (let d :=
        Z.to_nat (py_int (times (Runtime := toy_runtime)
                            (inject_Z 2) (inject_Z 1))) in
      let h := harmonics_in_use (inject_Z 2) None in
      let init := initial_state (rt := toy_runtime) 1 h O in
      let states :=
        trajectory (rt := toy_runtime) 1
          (two_pi_over (Runtime := toy_runtime) (inject_Z 2)) h
          (100 * d) init in
      [39800; 40200]
      = map (fun st => np_sum (rt := toy_runtime)
                         (gamma_of (rt := toy_runtime) st))
            (skipn (99 * d) states)).
Proof.
  assert (H : simulate_seasonal_term (rt := toy_runtime) (inject_Z 2)
                (inject_Z 1) 1 None O
              = Ok ([39800; 40200], 402%nat))
    by (vm_compute; reflexivity).
  split; [exact H |].
  exact (proj1 (series_from_states (rt := toy_runtime)
                  (inject_Z 2) (inject_Z 1) 1 None O
                  [39800; 40200] 402%nat H)).
Defined.

(* ------------------------------------------------------------------ *)
(** *** Draws and shapes *)

Section SimulateDraws.

Context {F : Type} {rt : Runtime F}.

Lemma skip_draws_add :
  forall n m g, skip_draws n (skip_draws m g) = skip_draws (n + m) g.
Proof.
  intros n m g. unfold skip_draws. now rewrite Nat.iter_add.
Qed.

Lemma skip_draws_after :
  forall n g, skip_draws n (snd (randn g)) = skip_draws (S n) g.
Proof.
  intros n g. unfold skip_draws. now rewrite Nat.iter_succ_r.
Qed.

Lemma randn_n_generator :
  forall n g, snd (randn_n n g) = skip_draws n g.
Proof.
  induction n as [| n IH]; intros g; [reflexivity |].
  cbn [randn_n]. destruct (randn g) as [x g1] eqn:E.
  specialize (IH g1). destruct (randn_n n g1) as [xs g2].
  cbn [snd] in *. rewrite IH.
  replace g1 with (snd (randn g)) by now rewrite E.
  apply skip_draws_after.
Qed.

Lemma randn_n_length :
  forall n g, length (fst (randn_n n g)) = n.
Proof.
  induction n as [| n IH]; intros g; [reflexivity |].
  cbn [randn_n]. destruct (randn g) as [x g1].
  specialize (IH g1). destruct (randn_n n g1) as [xs g2].
  cbn [fst length] in *. now rewrite IH.
Qed.

(** One harmonic takes two draws and keeps the shape of both arrays. *)
Lemma harmonic_step_effect :
  forall noise lambda gj gs acc j,
    let acc' := harmonic_step noise lambda gj gs acc j in
    length (gamma_of acc') = length (gamma_of acc)
    /\ length (gamma_star_of acc') = length (gamma_star_of acc)
    /\ generator_of acc' = skip_draws 2 (generator_of acc).
Proof.
  intros noise lambda gj gs [[a b] g] j.
  cbv beta iota zeta delta [harmonic_step].
  destruct (randn g) as [e1 g1] eqn:E1.
  destruct (randn g1) as [e2 g2] eqn:E2.
  cbn [gamma_of gamma_star_of generator_of fst snd].
  rewrite !set_at_length. repeat split.
  unfold skip_draws. cbv beta iota delta [Nat.iter nat_rect].
  rewrite E1. cbn [snd]. rewrite E2. reflexivity.
Qed.

Lemma harmonic_loop_effect :
  forall noise lambda gj gs js acc,
    let acc' := fold_left (harmonic_step noise lambda gj gs) js acc in
    length (gamma_of acc') = length (gamma_of acc)
    /\ length (gamma_star_of acc') = length (gamma_star_of acc)
    /\ generator_of acc' = skip_draws (2 * length js) (generator_of acc).
Proof.
  intros noise lambda gj gs js. induction js as [| j js IH]; intros acc.
  - cbn. repeat split.
  - cbv zeta. cbn [fold_left].
    destruct (IH (harmonic_step noise lambda gj gs acc j)) as [H1 [H2 H3]].
    destruct (harmonic_step_effect noise lambda gj gs acc j)
      as [K1 [K2 K3]].
    rewrite H1, H2, H3, K1, K2, K3, skip_draws_add.
    repeat split. f_equal. cbn [length]. lia.
Qed.

Lemma advance_effect :
  forall noise lambda h st,
    0 <= h ->
    let st' := advance noise lambda h st in
    length (gamma_of st') = length (gamma_of st)
    /\ length (gamma_star_of st') = length (gamma_star_of st)
    /\ generator_of st' = skip_draws (2 * Z.to_nat h) (generator_of st).
Proof.
  intros noise lambda h [[gj gs] g] Hh. cbv zeta. unfold advance.
  destruct (harmonic_loop_effect noise lambda gj gs (seq 1 (Z.to_nat h))
              (zeros_like gj, zeros_like gs, g)) as [H1 [H2 H3]].
  rewrite H1, H2, H3. rewrite length_seq.
  cbn [gamma_of gamma_star_of generator_of fst snd]. unfold zeros_like.
  rewrite !repeat_length. repeat split.
Qed.

Lemma trajectory_effect :
  forall noise lambda h n st,
    0 <= h ->
    let states := trajectory noise lambda h n st in
    Forall (fun s => length (gamma_of s) = length (gamma_of st)
                     /\ length (gamma_star_of s)
                        = length (gamma_star_of st)) states
    /\ generator_of (last states st)
       = skip_draws (2 * Z.to_nat h * n) (generator_of st).
Proof.
  intros noise lambda h n. induction n as [| n IH]; intros st Hh; cbv zeta.
  - cbn [trajectory last]. split; [constructor |].
    rewrite Nat.mul_0_r. reflexivity.
  - cbn [trajectory]. rewrite last_after_head.
    destruct (advance_effect noise lambda h st Hh) as [A1 [A2 A3]].
    destruct (IH (advance noise lambda h st) Hh) as [I1 I2].
    split.
    + constructor; [now split |].
      eapply Forall_impl; [| exact I1].
      intros s [S1 S2]. now rewrite S1, S2.
    + rewrite I2, A3, skip_draws_add. f_equal. lia.
Qed.

Lemma initial_state_effect :
  forall noise h g,
    0 <= h ->
    length (gamma_of (initial_state noise h g)) = Z.to_nat h
    /\ length (gamma_star_of (initial_state noise h g)) = Z.to_nat h
    /\ generator_of (initial_state noise h g)
       = skip_draws (2 * Z.to_nat h) g.
Proof.
  intros noise h g Hh. unfold initial_state.
  pose proof (randn_n_length (Z.to_nat h) g) as L1.
  pose proof (randn_n_generator (Z.to_nat h) g) as G1.
  destruct (randn_n (Z.to_nat h) g) as [e1 g1]. cbn [fst snd] in L1, G1.
  pose proof (randn_n_length (Z.to_nat h) g1) as L2.
  pose proof (randn_n_generator (Z.to_nat h) g1) as G2.
  destruct (randn_n (Z.to_nat h) g1) as [e2 g2]. cbn [fst snd] in L2, G2.
  cbn [gamma_of gamma_star_of generator_of fst snd].
  rewrite !length_map, L1, L2, G2, G1, skip_draws_add.
  repeat split. f_equal. lia.
Qed.

(** X8. A call that returns has taken exactly
    [2 * harmonics * (1 + 100 * duration)] draws from the generator: two
    vectors of [harmonics] draws at the start and two draws per harmonic
    in each of the [100 * duration] time steps, burn-in included. *)
Theorem draws_consumed :
  forall periodicity total_cycles noise_std harmonics g series g',
    simulate_seasonal_term periodicity total_cycles noise_std harmonics g
    = Ok (series, g') ->
    let d := Z.to_nat (py_int (times periodicity total_cycles)) in
    let h := Z.to_nat (harmonics_in_use periodicity harmonics) in
    g' = skip_draws (2 * h * (1 + 100 * d)) g.
Proof.
  intros p c noise harm g series g' Hcall d h.
  destruct (simulate_returns_states p c noise harm g series g' Hcall)
    as [Hd [Hh [_ Hg]]].
  rewrite Hg.
  destruct (trajectory_effect noise (two_pi_over p)
              (harmonics_in_use p harm)
              (100 * Z.to_nat (py_int (times p c)))
              (initial_state noise (harmonics_in_use p harm) g) Hh)
    as [_ T].
  rewrite T.
  destruct (initial_state_effect noise (harmonics_in_use p harm) g Hh)
    as [_ [_ I]].
  rewrite I, skip_draws_add. f_equal. subst d h. lia.
Qed.

(** X9. Through a call that returns, [gamma_jt] and [gamma_star_jt] hold
    exactly [harmonics] entries in every state, the initial one included,
    so each [j - 1] for [j] in [range(1, harmonics + 1)] addresses an
    entry that exists. *)
Theorem state_shape :
  forall periodicity total_cycles noise_std harmonics g series g',
    simulate_seasonal_term periodicity total_cycles noise_std harmonics g
    = Ok (series, g') ->
    let d := Z.to_nat (py_int (times periodicity total_cycles)) in
    let h := harmonics_in_use periodicity harmonics in
    let init := initial_state noise_std h g in
    Forall (fun st => length (gamma_of st) = Z.to_nat h
                      /\ length (gamma_star_of st) = Z.to_nat h
                      /\ Forall (fun j => (j - 1 < length (gamma_of st))%nat)
                                (seq 1 (Z.to_nat h)))
           (init :: trajectory noise_std (two_pi_over periodicity) h
                      (100 * d) init).
Proof.
  intros p c noise harm g series g' Hcall d h init.
  destruct (simulate_returns_states p c noise harm g series g' Hcall)
    as [Hd [Hh _]].
  fold h in Hh.
  destruct (initial_state_effect noise h g Hh) as [I1 [I2 _]].
  fold init in I1, I2.
  assert (Hj : forall n, Forall (fun j => (j - 1 < n)%nat) (seq 1 n)).
  { intros n. apply Forall_forall. intros j Hj. apply in_seq in Hj. lia. }
  constructor.
  - repeat split; [exact I1 | exact I2 |]. rewrite I1. apply Hj.
  - destruct (trajectory_effect noise (two_pi_over p) h (100 * d) init Hh)
      as [T _].
    eapply Forall_impl; [| exact T].
    intros st [S1 S2]. rewrite S1, S2, I1, I2.
    repeat split. apply Hj.
Qed.

End SimulateDraws.

Lemma draws_consumed_witness :
  simulate_seasonal_term (rt := toy_runtime) (inject_Z 2) (inject_Z 1) 1
    None O
  = Ok ([39800; 40200], 402%nat)
  /\ (let d :=
        Z.to_nat (py_int (times (Runtime := toy_runtime)
                            (inject_Z 2) (inject_Z 1))) in
      let h := Z.to_nat (harmonics_in_use (inject_Z 2) None) in
      402%nat
      = skip_draws (rt := toy_runtime) (2 * h * (1 + 100 * d)) O).
Proof.
  assert (H : simulate_seasonal_term (rt := toy_runtime) (inject_Z 2)
                (inject_Z 1) 1 None O
              = Ok ([39800; 40200], 402%nat))
    by (vm_compute; reflexivity).
  split; [exact H |].
  exact (draws_consumed (rt := toy_runtime) (inject_Z 2) (inject_Z 1) 1 None
           O [39800; 40200] 402%nat H).
Defined.

Lemma state_shape_witness :
  simulate_seasonal_term (rt := toy_runtime) (inject_Z 2) (inject_Z 1) 1
    None O
  = Ok ([39800; 40200], 402%nat)
  /\ length (gamma_of (rt := toy_runtime)
               (initial_state (rt := toy_runtime) 1
                  (harmonics_in_use (inject_Z 2) None) O))
     = Z.to_nat (harmonics_in_use (inject_Z 2) None).
Proof.
  assert (H : simulate_seasonal_term (rt := toy_runtime) (inject_Z 2)
                (inject_Z 1) 1 None O
              = Ok ([39800; 40200], 402%nat))
    by (vm_compute; reflexivity).
  split; [exact H |].
  exact (proj1 (Forall_inv
                  (state_shape (rt := toy_runtime) (inject_Z 2) (inject_Z 1)
                     1 None O [39800; 40200] 402%nat H))).
Defined.

(* ------------------------------------------------------------------ *)
(** *** No harmonics *)

Section NoHarmonics.

Context {F : Type} {rt : Runtime F}.

Lemma empty_list :
  forall (A : Type) (l : list A), length l = O -> l = [].
Proof. intros A [| x l] H; [reflexivity | discriminate H]. Qed.

(** X10. When no harmonic is in use (the default for a period of at
    least 0 and less than 2, for instance 1), a call that returns gives
    [duration] samples all equal to the empty sum, and takes no draw from
    the generator. *)
Theorem no_harmonics_zero_series :
  forall periodicity total_cycles noise_std harmonics g series g',
    simulate_seasonal_term periodicity total_cycles noise_std harmonics g
    = Ok (series, g') ->
    harmonics_in_use periodicity harmonics = 0 ->
    series = repeat fzero (Z.to_nat (py_int (times periodicity total_cycles)))
    /\ g' = g.
Proof.
  intros p c noise harm g series g' Hcall H0.
  destruct (simulate_returns_states p c noise harm g series g' Hcall)
    as [Hd [Hh [Hs Hg]]].
  rewrite H0 in *.
  set (init := initial_state noise 0 g) in *.
  set (states := trajectory noise (two_pi_over p) 0
                   (100 * Z.to_nat (py_int (times p c))) init) in *.
  destruct (initial_state_effect noise 0 g Hh) as [I1 [_ I3]].
  destruct (trajectory_effect noise (two_pi_over p) 0
              (100 * Z.to_nat (py_int (times p c))) init Hh) as [T1 T2].
  fold init in I1, I3. fold states in T1, T2.
  split.
  - assert (Hz : Forall (eq fzero)
                   (map (fun st => np_sum (gamma_of st)) states)).
    { apply Forall_map. eapply Forall_impl; [| exact T1].
      intros st [S _]. rewrite I1 in S.
      rewrite (empty_list _ _ S). reflexivity. }
    assert (Hlen : Z.of_nat (length (map (fun st => np_sum (gamma_of st))
                                         states))
                   = 100 * py_int (times p c)).
    { rewrite length_map. subst states. rewrite trajectory_length. lia. }
    pose proof (slice_from_length F _ _ Hd Hlen) as L.
    rewrite <- Hs in L.
    replace (Z.to_nat (py_int (times p c))) with (length series) by lia.
    apply all_equal_repeat. rewrite Hs. unfold slice_from.
    now apply Forall_skipn_keeps.
  - rewrite Hg, T2, I3. reflexivity.
Qed.

End NoHarmonics.

Lemma no_harmonics_zero_series_witness :
  (simulate_seasonal_term (rt := toy_runtime) (inject_Z 1) (inject_Z 3) 1
     None O
   = Ok ([0; 0; 0], O)
   /\ harmonics_in_use (inject_Z 1) None = 0)
  /\ [0; 0; 0]
     = repeat (fzero (Runtime := toy_runtime))
         (Z.to_nat (py_int (times (Runtime := toy_runtime)
                              (inject_Z 1) (inject_Z 3)))).
Proof.
  assert (H : simulate_seasonal_term (rt := toy_runtime) (inject_Z 1)
                (inject_Z 3) 1 None O
              = Ok ([0; 0; 0], O))
    by (vm_compute; reflexivity).
  assert (H0 : harmonics_in_use (inject_Z 1) None = 0) by reflexivity.
  split; [split; [exact H | exact H0] |].
  exact (proj1 (no_harmonics_zero_series (rt := toy_runtime) (inject_Z 1)
                  (inject_Z 3) 1 None O [0; 0; 0] O H H0)).
Defined.

(* ------------------------------------------------------------------ *)
(** *** The cell that builds the frame *)

Lemma py_int_of_whole :
  forall (x : Q) (n : Z), Qeq x (inject_Z n) -> py_int x = n.
Proof.
  intros x n H. unfold py_int. unfold Qeq in H. simpl in H.
  rewrite Z.mul_1_r in H. rewrite H. apply Z.quot_mul. discriminate.
Qed.

Lemma same_length_all :
  forall (A : Type) (n : nat) (rows : list (list A)),
    Forall (fun x => length x = n) rows -> same_length rows = true.
Proof.
  intros A n rows H. destruct H as [| row rows Hrow Hrows]; [reflexivity |].
  cbn [same_length]. apply forallb_forall. intros x Hx.
  rewrite Forall_forall in Hrows. rewrite (Hrows x Hx), Hrow.
  apply Nat.eqb_refl.
Qed.

Section CellFacts.

Context {F : Type} {rt : Runtime F}.

(** A call on a whole, non-negative duration with a non-zero period and
    harmonics given returns that many samples. *)
Lemma call_returns :
  forall periodicity total_cycles noise_std h g (n : Z),
    Qeq (times periodicity total_cycles) (inject_Z n) ->
    0 <= n -> 0 < h ->
    ~ Qeq periodicity (inject_Z 0) ->
    exists s g',
      simulate_seasonal_term periodicity total_cycles noise_std (Some h) g
      = Ok (s, g')
      /\ length s = Z.to_nat n.
Proof.
  intros p c noise h g n Hn Hpos Hh Hp.
  unfold simulate_seasonal_term. rewrite simulate_padded_cases. cbv zeta.
  assert (Ha : assertion_passes p c = true)
    by (apply py_int_whole; now exists n).
  rewrite Ha. rewrite (py_int_of_whole _ _ Hn).
  destruct (Qeq_bool p (inject_Z 0)) eqn:Ep;
    [apply Qeq_bool_iff in Ep; contradiction |].
  assert (Hu : harmonics_in_use p (Some h) = h).
  { unfold harmonics_in_use, truthy_or.
    destruct (h =? 0) eqn:E; [apply Z.eqb_eq in E; lia | reflexivity]. }
  rewrite Hu.
  destruct (h <? 0) eqn:Eh; [apply Z.ltb_lt in Eh; lia |].
  destruct (n <? 0) eqn:En; [apply Z.ltb_lt in En; lia |].
  cbn [bind]. eexists _, _. split; [reflexivity |].
  apply Nat2Z.inj. rewrite slice_from_length; [lia | exact Hpos |].
  rewrite length_map, trajectory_length. lia.
Qed.

(** X11. Provided the products [10 * (300 / 10)] and [100 * (300 / 100)]
    come out as 300, the cell raises nothing and builds a frame of four
    columns, [total], [10(3)], [100(2)] and [level], of 300 entries each,
    the level being constant. *)
Theorem seasonal_cell_frame :
  forall seeded : rng,
    Qeq (times (inject_Z 10) (Qdiv (inject_Z 300) (inject_Z 10)))
        (inject_Z 300) ->
    Qeq (times (inject_Z 100) (Qdiv (inject_Z 300) (inject_Z 100)))
        (inject_Z 300) ->
    exists total ten hundred level,
      seasonal_cell seeded
      = Done [("total", total); ("10(3)", ten); ("100(2)", hundred);
              ("level", level)]
      /\ length total = 300%nat /\ length ten = 300%nat
      /\ length hundred = 300%nat
      /\ level = repeat (fmul (of_int 1) (of_int 10)) 300.
Proof.
  intros seeded H10 H100.
  assert (N10 : ~ Qeq (inject_Z 10) (inject_Z 0)) by discriminate.
  assert (N100 : ~ Qeq (inject_Z 100) (inject_Z 0)) by discriminate.
  destruct (call_returns (inject_Z 10) (Qdiv (inject_Z 300) (inject_Z 10))
              (of_int 2) 3 seeded 300 H10 ltac:(lia) ltac:(lia) N10)
    as [s1 [g1 [E1 L1]]].
  destruct (call_returns (inject_Z 100) (Qdiv (inject_Z 300) (inject_Z 100))
              (of_int 3) 2 g1 300 H100 ltac:(lia) ltac:(lia) N100)
    as [s2 [g2 [E2 L2]]].
  change (Z.to_nat 300) with 300%nat in L1, L2.
  unfold seasonal_cell. change (100 * 3) with 300.
  cbn [simulate_terms length seq py_index nth_error and_then py_truediv
       Z.eqb].
  rewrite E1. cbn [of_call and_then app py_index nth_error py_truediv Z.eqb].
  rewrite E2. cbn [of_call and_then app py_index nth_error].
  rewrite L1.
  set (level := map (fun x => fmul x (of_int 10)) (repeat (of_int 1) 300)).
  assert (Ll : length level = 300%nat)
    by (subst level; now rewrite length_map, repeat_length).
  unfold np_sum_axis0.
  rewrite (same_length_all F 300 [s1; s2; level])
    by (repeat constructor; assumption).
  cbn [and_then py_index nth_error]. rewrite L1.
  set (total := map (fun i => np_sum (map (fun x => nth i x fzero)
                                          [s1; s2; level]))
                    (seq 0 300)).
  assert (Lt : length total = 300%nat)
    by (subst total; now rewrite length_map, length_seq).
  unfold data_frame.
  rewrite (same_length_all F 300)
    by (repeat constructor; assumption).
  exists total, s1, s2, level.
  split; [reflexivity |]. do 3 (split; [assumption |]).
  subst level. rewrite map_repeat. reflexivity.
Qed.

End CellFacts.

Lemma seasonal_cell_frame_witness :
  (Qeq (times (Runtime := toy_runtime) (inject_Z 10)
          (Qdiv (inject_Z 300) (inject_Z 10))) (inject_Z 300)
   /\ Qeq (times (Runtime := toy_runtime) (inject_Z 100)
             (Qdiv (inject_Z 300) (inject_Z 100))) (inject_Z 300))
  /\ exists total ten hundred level,
       seasonal_cell (rt := toy_runtime) O
       = Done [("total", total); ("10(3)", ten); ("100(2)", hundred);
               ("level", level)]
       /\ length total = 300%nat /\ length ten = 300%nat
       /\ length hundred = 300%nat
       /\ level = repeat (fmul (Runtime := toy_runtime)
                            (of_int (Runtime := toy_runtime) 1)
                            (of_int (Runtime := toy_runtime) 10)) 300.
Proof.
  assert (H10 : Qeq (times (Runtime := toy_runtime) (inject_Z 10)
                       (Qdiv (inject_Z 300) (inject_Z 10))) (inject_Z 300))
    by reflexivity.
  assert (H100 : Qeq (times (Runtime := toy_runtime) (inject_Z 100)
                        (Qdiv (inject_Z 300) (inject_Z 100))) (inject_Z 300))
    by reflexivity.
  split; [split; assumption |].
  exact (seasonal_cell_frame (rt := toy_runtime) O H10 H100).
Defined.

(* ================================================================== *)
(** * Properties of the data preparation of [glm_formula.ipynb] *)

Close Scope Z_scope.

Section FrameFacts.

Variable F : Type.

Lemma get_present :
  forall (name : string) (df : Glm.frame F),
    In name (Glm.columns df) -> exists col, Glm.get name df = Glm.Ok col.
Proof.
  intros name df. induction df as [| [n c] df IH]; simpl; [tauto |].
  intros H. destruct (String.eqb name n) eqn:E; [now exists c |].
  apply String.eqb_neq in E. destruct H as [H | H];
    [symmetry in H; contradiction | now apply IH].
Qed.

Lemma get_absent :
  forall (name : string) (df : Glm.frame F),
    ~ In name (Glm.columns df) ->
    Glm.get name df = Glm.Raise (Glm.KeyError [name]).
Proof.
  intros name df. induction df as [| [n c] df IH]; simpl; [reflexivity |].
  intros H. destruct (String.eqb name n) eqn:E.
  - apply String.eqb_eq in E. subst n. tauto.
  - apply IH. tauto.
Qed.

Lemma has_column :
  forall (n : string) (df : Glm.frame F),
    existsb (String.eqb n) (Glm.columns df) = true <-> In n (Glm.columns df).
Proof.
  intros n df. rewrite existsb_exists. split.
  - intros [x [Hx E]]. apply String.eqb_eq in E. now subst x.
  - intros H. exists n. split; [exact H | apply String.eqb_refl].
Qed.

(** The labels reported missing are those asked for that the frame does
    not have, in the order asked for. *)
Lemma missing_spec :
  forall (names : list string) (df : Glm.frame F) (n : string),
    In n (Glm.missing names df)
    <-> In n names /\ ~ In n (Glm.columns df).
Proof.
  intros names df n. unfold Glm.missing. rewrite filter_In.
  rewrite negb_true_iff, <- not_true_iff_false, has_column. tauto.
Qed.

Lemma nothing_missing :
  forall (names : list string) (df : Glm.frame F),
    Glm.missing names df = [] <->
    (forall n, In n names -> In n (Glm.columns df)).
Proof.
  intros names df. split.
  - intros H n Hn.
    destruct (in_dec string_dec n (Glm.columns df)) as [Hi | Hi];
      [exact Hi |].
    assert (K : In n (Glm.missing names df)) by (apply missing_spec; tauto).
    rewrite H in K. destruct K.
  - intros H. destruct (Glm.missing names df) as [| m ms] eqn:E;
      [reflexivity |].
    assert (K : In m (Glm.missing names df)) by (rewrite E; now left).
    apply missing_spec in K. destruct K as [K1 K2].
    exfalso. apply K2. now apply H.
Qed.

(** A collection that succeeds has the columns asked for, in that order,
    each as the frame holds it. *)
Lemma collect_ok :
  forall (names : list string) (df dta : Glm.frame F),
    Glm.collect names df = Glm.Ok dta ->
    Glm.columns dta = names
    /\ (forall n, In n names -> Glm.get n dta = Glm.get n df).
Proof.
  induction names as [| name names IH]; intros df dta; simpl.
  - intros [= <-]. split; [reflexivity | intros n []].
  - destruct (Glm.get name df) as [col |] eqn:G; simpl; [| discriminate].
    destruct (Glm.collect names df) as [others |] eqn:S; simpl;
      [| discriminate].
    intros [= <-]. destruct (IH df others S) as [H1 H2].
    split; [simpl; now rewrite H1 |].
    intros n Hn. simpl. destruct (String.eqb n name) eqn:E.
    + apply String.eqb_eq in E. subst n. now rewrite G.
    + apply String.eqb_neq in E. apply H2.
      destruct Hn as [Hn | Hn]; [symmetry in Hn; contradiction | exact Hn].
Qed.

Lemma collect_present :
  forall (names : list string) (df : Glm.frame F),
    (forall n, In n names -> In n (Glm.columns df)) ->
    exists dta, Glm.collect names df = Glm.Ok dta.
Proof.
  induction names as [| name names IH]; intros df H; simpl.
  - now exists [].
  - destruct (get_present name df (H name (or_introl eq_refl))) as [col G].
    rewrite G. simpl.
    destruct (IH df (fun n Hn => H n (or_intror Hn))) as [others S].
    rewrite S. simpl. now eexists.
Qed.

(** A selection either finds every label or reports the missing ones. *)
Lemma select_cases :
  forall (names : list string) (df : Glm.frame F),
    (Glm.missing names df = []
     /\ exists dta, Glm.select names df = Glm.Ok dta
                    /\ Glm.columns dta = names
                    /\ (forall n, In n names ->
                                  Glm.get n dta = Glm.get n df))
    \/ (Glm.missing names df <> []
        /\ Glm.select names df
           = Glm.Raise (Glm.KeyError (Glm.missing names df))).
Proof.
  intros names df. unfold Glm.select.
  destruct (Glm.missing names df) as [| m ms] eqn:E.
  - left. split; [reflexivity |].
    destruct (collect_present names df) as [dta C];
      [now apply nothing_missing |].
    exists dta. split; [exact C |]. now apply collect_ok.
  - right. split; [discriminate | reflexivity].
Qed.

Variables fadd fdiv : F -> F -> F.

Ltac named_columns dta H :=
  repeat (destruct dta as [| [? ?] dta]; simpl in H;
          [discriminate H | injection H as -> H]);
  destruct dta; simpl in H; [clear H | discriminate H].

(** What the cell makes of a selection that succeeded. *)
Lemma prepare_after_select :
  forall (star98 dta0 : Glm.frame F),
    Glm.select Glm.selected star98 = Glm.Ok dta0 ->
    Glm.columns dta0 = Glm.selected ->
    (forall n, In n Glm.selected -> Glm.get n dta0 = Glm.get n star98) ->
    exists nabove nbelow dta,
      Glm.get "NABOVE" star98 = Glm.Ok nabove
      /\ Glm.get "NBELOW" star98 = Glm.Ok nbelow
      /\ Glm.prepare F fadd fdiv star98 = Glm.Ok dta
      /\ Glm.columns dta = Glm.regressors ++ ["SUCCESS"]
      /\ (forall n, In n Glm.regressors ->
                    Glm.get n dta = Glm.get n star98)
      /\ Glm.get "SUCCESS" dta
         = Glm.Ok (Glm.rowwise fdiv nabove
                     (Glm.rowwise fadd nabove nbelow)).
Proof.
  intros star98 dta0 S Hc Hg. unfold Glm.prepare. rewrite S.
  unfold Glm.columns, Glm.selected in Hc.
  assert (G : forall n, In n Glm.selected ->
                        Glm.get n star98 = Glm.get n dta0)
    by (intros n Hn; symmetry; now apply Hg).
  clear Hg S. named_columns dta0 Hc.
  exists l, l0. eexists.
  split; [apply G; unfold Glm.selected; simpl; tauto |].
  split; [apply G; unfold Glm.selected; simpl; tauto |].
  split; [reflexivity |]. split; [reflexivity |]. split; [| reflexivity].
  intros n Hn. rewrite G by (unfold Glm.selected; simpl in *; tauto).
  simpl in Hn.
  repeat (destruct Hn as [<- | Hn]; [reflexivity |]). contradiction.
Qed.

(** X12. When the table holds the fourteen columns the cell selects, the
    cell raises nothing and leaves the twelve regressors, in the order
    selected and with the values the table has, followed by [SUCCESS],
    row by row [NABOVE / (NABOVE + NBELOW)]; [NABOVE] and [NBELOW]
    themselves are gone. *)
Theorem prepare_frame :
  forall star98 : Glm.frame F,
    (forall n, In n Glm.selected -> In n (Glm.columns star98)) ->
    exists nabove nbelow dta,
      Glm.get "NABOVE" star98 = Glm.Ok nabove
      /\ Glm.get "NBELOW" star98 = Glm.Ok nbelow
      /\ Glm.prepare F fadd fdiv star98 = Glm.Ok dta
      /\ Glm.columns dta = Glm.regressors ++ ["SUCCESS"]
      /\ (forall n, In n Glm.regressors ->
                    Glm.get n dta = Glm.get n star98)
      /\ Glm.get "SUCCESS" dta
         = Glm.Ok (Glm.rowwise fdiv nabove
                     (Glm.rowwise fadd nabove nbelow)).
Proof.
  intros star98 H.
  destruct (select_cases Glm.selected star98)
    as [[_ [dta0 [S [Hc Hg]]]] | [M _]].
  - exact (prepare_after_select star98 dta0 S Hc Hg).
  - exfalso. apply M. now apply nothing_missing.
Qed.

(** X13. The cell fails exactly when the table lacks one of the fourteen
    columns it selects, and then with the [KeyError] of the selection,
    which reports the selected columns that are missing, all of them and
    in the order selected; nothing later in the cell can raise. *)
Theorem prepare_missing_column :
  forall star98 : Glm.frame F,
    ((exists e, Glm.prepare F fadd fdiv star98 = Glm.Raise e)
     <-> exists n, In n Glm.selected /\ ~ In n (Glm.columns star98))
    /\ (forall e,
          Glm.prepare F fadd fdiv star98 = Glm.Raise e ->
          e = Glm.KeyError (Glm.missing Glm.selected star98))
    /\ (forall n, In n (Glm.missing Glm.selected star98)
                  <-> In n Glm.selected /\ ~ In n (Glm.columns star98)).
Proof.
  intros star98.
  split; [| split; [| intros n; apply missing_spec]].
  - destruct (select_cases Glm.selected star98)
      as [[M [dta0 [S [Hc Hg]]]] | [M S]].
    + destruct (prepare_after_select star98 dta0 S Hc Hg)
        as [a [b [dta [_ [_ [P _]]]]]].
      rewrite P. split.
      * intros [e E]. discriminate E.
      * intros [n [H1 H2]]. exfalso. apply H2.
        now apply (proj1 (nothing_missing Glm.selected star98) M).
    + assert (P : Glm.prepare F fadd fdiv star98
                  = Glm.Raise (Glm.KeyError
                                 (Glm.missing Glm.selected star98)))
        by (unfold Glm.prepare; now rewrite S).
      rewrite P. split.
      * intros _.
        destruct (Glm.missing Glm.selected star98) as [| m ms] eqn:E;
          [contradiction |].
        exists m. apply missing_spec. rewrite E. now left.
      * intros _. now eexists.
  - intros e.
    destruct (select_cases Glm.selected star98)
      as [[M [dta0 [S [Hc Hg]]]] | [M S]].
    + destruct (prepare_after_select star98 dta0 S Hc Hg)
        as [a [b [dta [_ [_ [P _]]]]]].
      rewrite P. discriminate.
    + unfold Glm.prepare. rewrite S. cbn [Glm.bind].
      generalize (Glm.missing Glm.selected star98). intros ms E.
      injection E as <-. reflexivity.
Qed.

(** X14. The frame the cell leaves holds exactly the variables the
    formula mentions: every name in the formula is a column and every
    column is named in the formula.  The second formula mentions, besides
    these, only [double_it]. *)
Theorem formula_names :
  forall star98 dta : Glm.frame F,
    Glm.prepare F fadd fdiv star98 = Glm.Ok dta ->
    (forall n, In n (Glm.names_of Glm.formula) <-> In n (Glm.columns dta))
    /\ (forall n, In n (Glm.names_of Glm.formula_double_it)
                  <-> In n (Glm.columns dta) \/ n = "double_it").
Proof.
  intros star98 dta P.
  destruct (select_cases Glm.selected star98)
    as [[M [dta0 [S [Hc Hg]]]] | [M S]];
    [| unfold Glm.prepare in P; rewrite S in P; discriminate P].
  destruct (prepare_after_select star98 dta0 S Hc Hg)
    as [a [b [dta' [_ [_ [P' [C _]]]]]]].
  rewrite P in P'. injection P' as <-. rewrite C.
  split; intros n.
  - change (Glm.names_of Glm.formula)
      with ("SUCCESS" :: Glm.regressors).
    unfold Glm.regressors. simpl. tauto.
  - change (Glm.names_of Glm.formula_double_it)
      with ("SUCCESS" :: "double_it" :: Glm.regressors).
    unfold Glm.regressors. simpl.
    intuition (auto; congruence).
Qed.

End FrameFacts.

Example prepare_sample :
  Glm.prepare Z Z.add Z.div Glm.sample_table
  = Glm.Ok
      [("LOWINC", [6; 4]%Z); ("PERASIAN", [8; 4]%Z); ("PERBLACK", [8; 4]%Z);
       ("PERHISP", [7; 4]%Z); ("PCTCHRT", [7; 4]%Z); ("PCTYRRND", [8; 4]%Z);
       ("PERMINTE", [8; 4]%Z); ("AVYRSEXP", [8; 4]%Z); ("AVSALK", [6; 4]%Z);
       ("PERSPENK", [8; 4]%Z); ("PTRATIO", [7; 4]%Z); ("PCTAF", [5; 4]%Z);
       ("SUCCESS", [0; 0]%Z)].
Proof. reflexivity. Qed.

Example prepare_without_nbelow :
  Glm.prepare Z Z.add Z.div (Glm.drop "NBELOW" Glm.sample_table)
  = Glm.Raise (Glm.KeyError ["NBELOW"]).
Proof. reflexivity. Qed.

Lemma sample_table_columns :
  forall n, In n Glm.selected -> In n (Glm.columns Glm.sample_table).
Proof.
  intros n Hn. unfold Glm.selected in Hn. simpl in Hn.
  repeat (destruct Hn as [<- | Hn]; [in_list |]). contradiction.
Defined.

Lemma prepare_frame_witness :
  exists nabove nbelow dta,
    Glm.get "NABOVE" Glm.sample_table = Glm.Ok nabove
    /\ Glm.get "NBELOW" Glm.sample_table = Glm.Ok nbelow
    /\ Glm.prepare Z Z.add Z.div Glm.sample_table = Glm.Ok dta
    /\ Glm.columns dta = Glm.regressors ++ ["SUCCESS"]
    /\ (forall n, In n Glm.regressors ->
                  Glm.get n dta = Glm.get n Glm.sample_table)
    /\ Glm.get "SUCCESS" dta
       = Glm.Ok (Glm.rowwise Z.div nabove (Glm.rowwise Z.add nabove nbelow)).
Proof.
  exact (prepare_frame Z Z.add Z.div Glm.sample_table sample_table_columns).
Defined.

Lemma formula_names_witness :
  Glm.prepare Z Z.add Z.div Glm.sample_table
  = Glm.Ok (Glm.set "SUCCESS" [0; 0]%Z
              (Glm.drop "NABOVE"
                 (Glm.drop "NBELOW" (Glm.drop "DISTRICT" Glm.sample_table))))
  /\ (In "PTRATIO" (Glm.names_of Glm.formula)
      <-> In "PTRATIO"
             (Glm.columns
                (Glm.set "SUCCESS" [0; 0]%Z
                   (Glm.drop "NABOVE"
                      (Glm.drop "NBELOW"
                         (Glm.drop "DISTRICT" Glm.sample_table)))))).
Proof.
  assert (H : Glm.prepare Z Z.add Z.div Glm.sample_table
              = Glm.Ok (Glm.set "SUCCESS" [0; 0]%Z
                          (Glm.drop "NABOVE"
                             (Glm.drop "NBELOW"
                                (Glm.drop "DISTRICT" Glm.sample_table)))))
    by reflexivity.
  split; [exact H |].
  exact (proj1 (formula_names Z Z.add Z.div Glm.sample_table _ H) "PTRATIO").
Defined.
